(** * Master Controller (v4) of the automated wood sorting conveyor

    A shallow embedding of the Arduino sketch "Master Controller for
    Automated Wood Sorting System (v4)": the polling loop that debounces
    the IR break-beam sensor, measures how long the beam stays broken,
    pulses the conveyor stepper, runs the IDLE / CONTINUOUS / TRIGGER mode
    machine and dispatches the single-character host commands.

    The sketch is sequential C++ over global variables and the Arduino
    runtime.  The globals become the fields of one record, [Sys]; every
    runtime call that reads the outside world ([millis], [micros],
    [digitalRead], [Serial.available]/[Serial.read]) takes its answer from
    an oracle, [Hardware], indexed by how many such calls were made so far;
    every runtime call that acts on the outside world is appended to an
    event trace.  Routines are written in a small state-and-trace monad so
    that they read like the sketch.

    Nothing is assumed of the oracle: the clocks need not advance, so every
    theorem holds in particular for the readings of a real board.  Time
    spent in [delay] is an event of the trace.  [stepInterval] is a global
    the sketch never assigns and is taken as the constant it is initialised
    with. *)

From Stdlib Require Import ZArith List String Ascii Bool Lia.
From Stdlib Require Import DecimalString DecimalPos DecimalN.
Import ListNotations.
Local Open Scope Z_scope.

(** ** Machine arithmetic

    [unsigned long] is 32 bits wide on the boards the sketch targets.  A
    comparison between an [unsigned long] and a [long] constant is carried
    out on [unsigned long]. *)

Definition ULONG_MAX1 : Z := 2 ^ 32.

Definition to_ulong (z : Z) : Z := z mod ULONG_MAX1.

(** [a - b] on [unsigned long]. *)
Definition usub (a b : Z) : Z := to_ulong (a - b).

(** [String(n)] for an [unsigned long]: its decimal digits. *)
Definition String_of_ulong (n : Z) : string :=
  NilZero.string_of_uint (N.to_uint (Z.to_N n)).

(** Reading a decimal numeral back. *)
Definition parse_ulong (str : string) : option Z :=
  option_map (fun u => Z.of_N (N.of_uint u)) (NilZero.uint_of_string str).

(** ** Pins, levels, modes, servos *)

Inductive Level : Set := LOW | HIGH.

Definition Level_eqb (a b : Level) : bool :=
  match a, b with
  | LOW, LOW | HIGH, HIGH => true
  | _, _ => false
  end.

(** [digitalWrite(pin, b)] with a [bool] argument. *)
Definition Level_of_bool (b : bool) : Level := if b then HIGH else LOW.

Definition IR_SENSOR_PIN : Z := 11.
Definition SERVO_1_PIN : Z := 2.
Definition SERVO_2_PIN : Z := 3.
Definition SERVO_3_PIN : Z := 4.
Definition STEPPER_ENA_PIN : Z := 8.
Definition STEPPER_DIR_PIN : Z := 9.
Definition STEPPER_STEP_PIN : Z := 10.

Inductive PinMode : Set := INPUT_PULLUP | OUTPUT.

Inductive Mode : Set := IDLE | CONTINUOUS | TRIGGER.

Definition Mode_eqb (a b : Mode) : bool :=
  match a, b with
  | IDLE, IDLE | CONTINUOUS, CONTINUOUS | TRIGGER, TRIGGER => true
  | _, _ => false
  end.

Inductive Servo : Set := servo1 | servo2 | servo3.

(** ** Constants of the sketch *)

Definition stepInterval : Z := 500.
Definition runOutDuration : Z := 7000.
Definition debounceDelay : Z := 50.

(** ** What the board does to the outside world *)

Inductive Event : Set :=
| SerialBegin (baud : Z)
| SetPinMode (pin : Z) (m : PinMode)
| ServoAttach (g : Servo) (pin : Z)
| DigitalWrite (pin : Z) (l : Level)
| ServoWrite (g : Servo) (angle : Z)
| Delay (ms : Z)
| SerialPrint (s : string)
| SerialPrintln (s : string).

(** ** What the outside world answers

    [millis_at k] is the clock value seen by the [k]-th call of [millis()]
    since boot, [micros_at k] the same for [micros()], [ir_at k] the level
    seen by the [k]-th [digitalRead(IR_SENSOR_PIN)], and [rx_at k] what the
    [k]-th poll of the serial port finds: [None] when [Serial.available()]
    is 0, [Some c] when [Serial.read()] yields the byte [c]. *)

Record Hardware : Type := mkHardware {
  millis_at : nat -> Z;
  micros_at : nat -> Z;
  ir_at : nat -> Level;
  rx_at : nat -> option ascii
}.

(** ** The globals of the sketch, the servo positions and the call counters *)

Record Sys : Set := mkSys {
  currentMode : Mode;
  lastStepTime : Z;
  stepState : bool;
  motorActiveForTrigger : bool;
  inRunOutPhase : bool;
  runOutStartTime : Z;
  lastStableIrState : Level;
  lastFlickerIrState : Level;
  lastStateChangeTime : Z;
  beamBrokenStartTime : Z;
  beamIsBroken : bool;
  lastStatusTime : Z;          (* the static local of handleStepper *)
  servo1_angle : Z;
  servo2_angle : Z;
  servo3_angle : Z;
  millis_calls : nat;
  micros_calls : nat;
  ir_reads : nat;
  serial_polls : nat
}.

(** The values the globals are initialised with; the servo angles before
    [setup] writes them are not known and are taken as given. *)
Definition boot (a1 a2 a3 : Z) : Sys :=
  mkSys IDLE 0 false false false 0 HIGH HIGH 0 0 false 0 a1 a2 a3 0%nat 0%nat 0%nat 0%nat.

Definition set_currentMode (v : Mode) (s : Sys) : Sys :=
  let (_, f2, f3, f4, f5, f6, f7, f8, f9, f10, f11, f12, f13, f14, f15, f16, f17, f18, f19) := s in
  mkSys v f2 f3 f4 f5 f6 f7 f8 f9 f10 f11 f12 f13 f14 f15 f16 f17 f18 f19.
Definition set_lastStepTime (v : Z) (s : Sys) : Sys :=
  let (f1, _, f3, f4, f5, f6, f7, f8, f9, f10, f11, f12, f13, f14, f15, f16, f17, f18, f19) := s in
  mkSys f1 v f3 f4 f5 f6 f7 f8 f9 f10 f11 f12 f13 f14 f15 f16 f17 f18 f19.
Definition set_stepState (v : bool) (s : Sys) : Sys :=
  let (f1, f2, _, f4, f5, f6, f7, f8, f9, f10, f11, f12, f13, f14, f15, f16, f17, f18, f19) := s in
  mkSys f1 f2 v f4 f5 f6 f7 f8 f9 f10 f11 f12 f13 f14 f15 f16 f17 f18 f19.
Definition set_motorActiveForTrigger (v : bool) (s : Sys) : Sys :=
  let (f1, f2, f3, _, f5, f6, f7, f8, f9, f10, f11, f12, f13, f14, f15, f16, f17, f18, f19) := s in
  mkSys f1 f2 f3 v f5 f6 f7 f8 f9 f10 f11 f12 f13 f14 f15 f16 f17 f18 f19.
Definition set_inRunOutPhase (v : bool) (s : Sys) : Sys :=
  let (f1, f2, f3, f4, _, f6, f7, f8, f9, f10, f11, f12, f13, f14, f15, f16, f17, f18, f19) := s in
  mkSys f1 f2 f3 f4 v f6 f7 f8 f9 f10 f11 f12 f13 f14 f15 f16 f17 f18 f19.
Definition set_runOutStartTime (v : Z) (s : Sys) : Sys :=
  let (f1, f2, f3, f4, f5, _, f7, f8, f9, f10, f11, f12, f13, f14, f15, f16, f17, f18, f19) := s in
  mkSys f1 f2 f3 f4 f5 v f7 f8 f9 f10 f11 f12 f13 f14 f15 f16 f17 f18 f19.
Definition set_lastStableIrState (v : Level) (s : Sys) : Sys :=
  let (f1, f2, f3, f4, f5, f6, _, f8, f9, f10, f11, f12, f13, f14, f15, f16, f17, f18, f19) := s in
  mkSys f1 f2 f3 f4 f5 f6 v f8 f9 f10 f11 f12 f13 f14 f15 f16 f17 f18 f19.
Definition set_lastFlickerIrState (v : Level) (s : Sys) : Sys :=
  let (f1, f2, f3, f4, f5, f6, f7, _, f9, f10, f11, f12, f13, f14, f15, f16, f17, f18, f19) := s in
  mkSys f1 f2 f3 f4 f5 f6 f7 v f9 f10 f11 f12 f13 f14 f15 f16 f17 f18 f19.
Definition set_lastStateChangeTime (v : Z) (s : Sys) : Sys :=
  let (f1, f2, f3, f4, f5, f6, f7, f8, _, f10, f11, f12, f13, f14, f15, f16, f17, f18, f19) := s in
  mkSys f1 f2 f3 f4 f5 f6 f7 f8 v f10 f11 f12 f13 f14 f15 f16 f17 f18 f19.
Definition set_beamBrokenStartTime (v : Z) (s : Sys) : Sys :=
  let (f1, f2, f3, f4, f5, f6, f7, f8, f9, _, f11, f12, f13, f14, f15, f16, f17, f18, f19) := s in
  mkSys f1 f2 f3 f4 f5 f6 f7 f8 f9 v f11 f12 f13 f14 f15 f16 f17 f18 f19.
Definition set_beamIsBroken (v : bool) (s : Sys) : Sys :=
  let (f1, f2, f3, f4, f5, f6, f7, f8, f9, f10, _, f12, f13, f14, f15, f16, f17, f18, f19) := s in
  mkSys f1 f2 f3 f4 f5 f6 f7 f8 f9 f10 v f12 f13 f14 f15 f16 f17 f18 f19.
Definition set_lastStatusTime (v : Z) (s : Sys) : Sys :=
  let (f1, f2, f3, f4, f5, f6, f7, f8, f9, f10, f11, _, f13, f14, f15, f16, f17, f18, f19) := s in
  mkSys f1 f2 f3 f4 f5 f6 f7 f8 f9 f10 f11 v f13 f14 f15 f16 f17 f18 f19.
Definition set_servo1_angle (v : Z) (s : Sys) : Sys :=
  let (f1, f2, f3, f4, f5, f6, f7, f8, f9, f10, f11, f12, _, f14, f15, f16, f17, f18, f19) := s in
  mkSys f1 f2 f3 f4 f5 f6 f7 f8 f9 f10 f11 f12 v f14 f15 f16 f17 f18 f19.
Definition set_servo2_angle (v : Z) (s : Sys) : Sys :=
  let (f1, f2, f3, f4, f5, f6, f7, f8, f9, f10, f11, f12, f13, _, f15, f16, f17, f18, f19) := s in
  mkSys f1 f2 f3 f4 f5 f6 f7 f8 f9 f10 f11 f12 f13 v f15 f16 f17 f18 f19.
Definition set_servo3_angle (v : Z) (s : Sys) : Sys :=
  let (f1, f2, f3, f4, f5, f6, f7, f8, f9, f10, f11, f12, f13, f14, _, f16, f17, f18, f19) := s in
  mkSys f1 f2 f3 f4 f5 f6 f7 f8 f9 f10 f11 f12 f13 f14 v f16 f17 f18 f19.
Definition set_millis_calls (v : nat) (s : Sys) : Sys :=
  let (f1, f2, f3, f4, f5, f6, f7, f8, f9, f10, f11, f12, f13, f14, f15, _, f17, f18, f19) := s in
  mkSys f1 f2 f3 f4 f5 f6 f7 f8 f9 f10 f11 f12 f13 f14 f15 v f17 f18 f19.
Definition set_micros_calls (v : nat) (s : Sys) : Sys :=
  let (f1, f2, f3, f4, f5, f6, f7, f8, f9, f10, f11, f12, f13, f14, f15, f16, _, f18, f19) := s in
  mkSys f1 f2 f3 f4 f5 f6 f7 f8 f9 f10 f11 f12 f13 f14 f15 f16 v f18 f19.
Definition set_ir_reads (v : nat) (s : Sys) : Sys :=
  let (f1, f2, f3, f4, f5, f6, f7, f8, f9, f10, f11, f12, f13, f14, f15, f16, f17, _, f19) := s in
  mkSys f1 f2 f3 f4 f5 f6 f7 f8 f9 f10 f11 f12 f13 f14 f15 f16 f17 v f19.
Definition set_serial_polls (v : nat) (s : Sys) : Sys :=
  let (f1, f2, f3, f4, f5, f6, f7, f8, f9, f10, f11, f12, f13, f14, f15, f16, f17, f18, _) := s in
  mkSys f1 f2 f3 f4 f5 f6 f7 f8 f9 f10 f11 f12 f13 f14 f15 f16 f17 f18 v.

Definition servo_angle (g : Servo) (s : Sys) : Z :=
  match g with
  | servo1 => servo1_angle s
  | servo2 => servo2_angle s
  | servo3 => servo3_angle s
  end.

Definition set_servo_angle (g : Servo) (v : Z) (s : Sys) : Sys :=
  match g with
  | servo1 => set_servo1_angle v s
  | servo2 => set_servo2_angle v s
  | servo3 => set_servo3_angle v s
  end.

(** ** The monad of the sketch: read the oracle, update the globals, log
    the events *)

Definition M (A : Type) : Type := Hardware -> Sys -> A * Sys * list Event.

Definition ret {A} (a : A) : M A := fun _ s => (a, s, []).

Definition bind {A B} (m : M A) (k : A -> M B) : M B :=
  fun hw s =>
    let '(a, s1, e1) := m hw s in
    let '(b, s2, e2) := k a hw s1 in
    (b, s2, e1 ++ e2).

Notation "x <- m ;; k" := (bind m (fun x => k))
  (at level 61, m at next level, right associativity).
Notation "m ;; k" := (bind m (fun _ => k))
  (at level 61, right associativity).

Definition gets {A} (f : Sys -> A) : M A := fun _ s => (f s, s, []).
Definition modify (f : Sys -> Sys) : M unit := fun _ s => (tt, f s, []).
Definition emit (e : Event) : M unit := fun _ s => (tt, s, [e]).

Definition result {A} (m : M A) (hw : Hardware) (s : Sys) : A := fst (fst (m hw s)).
Definition state_after {A} (m : M A) (hw : Hardware) (s : Sys) : Sys := snd (fst (m hw s)).
Definition events {A} (m : M A) (hw : Hardware) (s : Sys) : list Event := snd (m hw s).

(** *** The Arduino runtime *)

Definition millis : M Z := fun hw s =>
  (to_ulong (millis_at hw (millis_calls s)),
   set_millis_calls (S (millis_calls s)) s, []).

Definition micros : M Z := fun hw s =>
  (to_ulong (micros_at hw (micros_calls s)),
   set_micros_calls (S (micros_calls s)) s, []).

(** The sketch reads one input pin only, the IR sensor. *)
Definition digitalRead (pin : Z) : M Level := fun hw s =>
  (ir_at hw (ir_reads s), set_ir_reads (S (ir_reads s)) s, []).

Definition digitalWrite (pin : Z) (l : Level) : M unit := emit (DigitalWrite pin l).

(** [Serial.available() > 0], and [Serial.read()] when it holds. *)
Definition Serial_poll : M (option ascii) := fun hw s =>
  (rx_at hw (serial_polls s), set_serial_polls (S (serial_polls s)) s, []).

Definition Serial_print (str : string) : M unit := emit (SerialPrint str).
Definition Serial_println (str : string) : M unit := emit (SerialPrintln str).

Definition Servo_write (g : Servo) (angle : Z) : M unit :=
  modify (set_servo_angle g angle) ;; emit (ServoWrite g angle).

Definition delay (ms : Z) : M unit := emit (Delay ms).

(** ** The routines of the sketch *)

Definition setup : M unit :=
  emit (SerialBegin 9600) ;;
  emit (SetPinMode IR_SENSOR_PIN INPUT_PULLUP) ;;
  emit (SetPinMode STEPPER_ENA_PIN OUTPUT) ;;
  emit (SetPinMode STEPPER_DIR_PIN OUTPUT) ;;
  emit (SetPinMode STEPPER_STEP_PIN OUTPUT) ;;
  digitalWrite STEPPER_DIR_PIN HIGH ;;
  digitalWrite STEPPER_ENA_PIN HIGH ;;
  emit (ServoAttach servo1 SERVO_1_PIN) ;;
  emit (ServoAttach servo2 SERVO_2_PIN) ;;
  emit (ServoAttach servo3 SERVO_3_PIN) ;;
  Servo_write servo1 0 ;; Servo_write servo2 0 ;; Servo_write servo3 0 ;;
  Serial_println "Master Controller V4 Initialized. Mode: IDLE".

(** *** handleStepper

    The body is cut into its four consecutive blocks: the throttle of the
    status line, the decision whether the motor should be active, the
    step pulse, and the status line. *)

(** [printStatus]: true about once a second. *)
Definition handleStepper_printStatus : M bool :=
  now <- millis ;;
  last <- gets lastStatusTime ;;
  let printStatus := 1000 <? usub now last in
  (if printStatus
   then (now' <- millis ;; modify (set_lastStatusTime now'))
   else ret tt) ;;
  ret printStatus.

(** [shouldBeActive], decided from the mode and the trigger flags; a
    run-out that has lasted [runOutDuration] is ended here. *)
Definition handleStepper_shouldBeActive : M bool :=
  mode <- gets currentMode ;;
  match mode with
  | CONTINUOUS => ret true
  | TRIGGER =>
      inRunOut <- gets inRunOutPhase ;;
      if inRunOut then
        now <- millis ;;
        start <- gets runOutStartTime ;;
        if usub now start <? runOutDuration then ret true
        else
          modify (set_inRunOutPhase false) ;;
          modify (set_motorActiveForTrigger false) ;;
          ret false
      else gets motorActiveForTrigger
  | IDLE => ret false
  end.

(** The step pulse, taken when [shouldBeActive]. *)
Definition handleStepper_pulse (shouldBeActive : bool) : M unit :=
  if shouldBeActive then
    currentTime <- micros ;;
    last <- gets lastStepTime ;;
    if stepInterval <=? usub currentTime last then
      modify (set_lastStepTime currentTime) ;;
      old <- gets stepState ;;
      modify (set_stepState (negb old)) ;;
      new <- gets stepState ;;
      digitalWrite STEPPER_STEP_PIN (Level_of_bool new)
    else ret tt
  else ret tt.

Definition handleStepper_status (printStatus shouldBeActive : bool) : M unit :=
  if printStatus then
    Serial_print "Mode: " ;;
    mode <- gets currentMode ;;
    match mode with
    | IDLE => Serial_print "IDLE"
    | CONTINUOUS => Serial_print "CONTINUOUS"
    | TRIGGER => Serial_print "TRIGGER"
    end ;;
    Serial_print " | Motor Active: " ;;
    Serial_println (if shouldBeActive then "YES" else "NO")
  else ret tt.

Definition handleStepper : M unit :=
  printStatus <- handleStepper_printStatus ;;
  shouldBeActive <- handleStepper_shouldBeActive ;;
  digitalWrite STEPPER_ENA_PIN (if shouldBeActive then LOW else HIGH) ;;
  handleStepper_pulse shouldBeActive ;;
  handleStepper_status printStatus shouldBeActive.

(** *** checkIrSensor *)

Definition checkIrSensor : M unit :=
  currentIrState <- digitalRead IR_SENSOR_PIN ;;
  lastFlicker <- gets lastFlickerIrState ;;
  (if negb (Level_eqb currentIrState lastFlicker)
   then (now <- millis ;; modify (set_lastStateChangeTime now))
   else ret tt) ;;
  modify (set_lastFlickerIrState currentIrState) ;;
  now <- millis ;;
  lastChange <- gets lastStateChangeTime ;;
  if debounceDelay <? usub now lastChange then
    lastStable <- gets lastStableIrState ;;
    if negb (Level_eqb currentIrState lastStable) then
      match currentIrState with
      | LOW =>
          (* beam broken *)
          Serial_println "B" ;;
          now <- millis ;;
          modify (set_beamBrokenStartTime now) ;;
          modify (set_beamIsBroken true) ;;
          mode <- gets currentMode ;;
          if Mode_eqb mode TRIGGER then
            modify (set_motorActiveForTrigger true) ;;
            modify (set_inRunOutPhase false)
          else ret tt
      | HIGH =>
          (* beam cleared *)
          broken <- gets beamIsBroken ;;
          (if broken then
             now <- millis ;;
             start <- gets beamBrokenStartTime ;;
             let duration := usub now start in
             let lengthMessage := ("L:" ++ String_of_ulong duration)%string in
             Serial_println lengthMessage ;;
             modify (set_beamIsBroken false)
           else ret tt) ;;
          mode <- gets currentMode ;;
          active <- gets motorActiveForTrigger ;;
          if Mode_eqb mode TRIGGER && active then
            modify (set_inRunOutPhase true) ;;
            now <- millis ;;
            modify (set_runOutStartTime now)
          else ret tt
      end ;;
      modify (set_lastStableIrState currentIrState)
    else ret tt
  else ret tt.

(** *** Commands *)

Definition activateServoGate (gateServo : Servo) (angle : Z) : M unit :=
  Servo_write gateServo angle ;;
  delay 1000 ;;
  Servo_write gateServo 0.

Definition checkSerialCommands : M unit :=
  available <- Serial_poll ;;
  match available with
  | None => ret tt
  | Some command =>
      if (command =? "1")%char then activateServoGate servo1 45
      else if (command =? "2")%char then activateServoGate servo2 90
      else if (command =? "3")%char then activateServoGate servo3 135
      else if (command =? "C")%char then
        modify (set_currentMode CONTINUOUS) ;;
        Serial_println "Mode: CONTINUOUS"
      else if (command =? "T")%char then
        modify (set_currentMode TRIGGER) ;;
        modify (set_motorActiveForTrigger false) ;;
        modify (set_inRunOutPhase false) ;;
        Serial_println "Mode: TRIGGER"
      else if (command =? "X")%char then
        modify (set_currentMode IDLE) ;;
        modify (set_motorActiveForTrigger false) ;;
        modify (set_inRunOutPhase false) ;;
        Serial_println "Mode: IDLE (Stopped)"
      else ret tt
  end.

(** *** The loop *)

Definition loop : M unit :=
  handleStepper ;;
  checkIrSensor ;;
  checkSerialCommands.

(** [n] iterations of the loop. *)
Fixpoint loops (n : nat) : M unit :=
  match n with
  | O => ret tt
  | S n' => loop ;; loops n'
  end.

(** The sketch from power-up: [setup], then [n] iterations of the loop. *)
Definition sketch (n : nat) : M unit := setup ;; loops n.

(** ** Hardware scripts used as concrete inputs *)

(** A quiet board: the clocks stand still, the beam is clear, and every
    poll of the serial port finds the given answer. *)
Definition hw_quiet (rx : option ascii) : Hardware :=
  mkHardware (fun _ => 0) (fun _ => 0) (fun _ => HIGH) (fun _ => rx).

(** A scripted session.  Every reading of [millis] comes 20 ms after the
    one before, until the 15th, where 10 s pass; the host sends 'T' at
    once; the beam is broken at the second and third sample and clear
    again afterwards; the host sends 'C' at the fifth poll. *)
Definition hw_session : Hardware :=
  mkHardware
    (fun k => if (k <? 15)%nat then 20 * Z.of_nat k else 20 * Z.of_nat k + 10000)
    (fun k => 300 * Z.of_nat k)
    (fun k => match k with 1%nat | 2%nat => LOW | _ => HIGH end)
    (fun k => match k with
              | 0%nat => Some "T"%char
              | 4%nat => Some "C"%char
              | _ => None
              end).

(** The session after [n] iterations of the loop. *)
Definition session_state (n : nat) : Sys :=
  state_after (sketch n) hw_session (boot 90 90 90).

(** The session in its fifth iteration, just before the serial port is
    polled. *)
Definition session_before_C : Sys :=
  state_after (handleStepper ;; checkIrSensor) hw_session (session_state 4).

(** The session in its fifth iteration, just before the sensor is polled
    and the cleared beam is accepted. *)
Definition session_before_clear : Sys :=
  state_after handleStepper hw_session (session_state 4).

(** A beam that flickers: broken at the second sample only, on a clock
    that moves 20 ms between readings. *)
Definition hw_flicker : Hardware :=
  mkHardware (fun k => 20 * Z.of_nat k) (fun k => 300 * Z.of_nat k)
    (fun k => match k with 1%nat => LOW | _ => HIGH end)
    (fun _ => None).

Definition flicker_start : Sys :=
  state_after (sketch 1) hw_flicker (boot 90 90 90).

(** An arrival.  The host sends 'T' at once; the beam is broken from the
    second sample on; the clock stands at 0 for its first five readings
    and at 1000 ms afterwards. *)
Definition hw_arrival : Hardware :=
  mkHardware
    (fun k => if (k <? 5)%nat then 0 else 1000)
    (fun k => 300 * Z.of_nat k)
    (fun k => match k with 0%nat => HIGH | _ => LOW end)
    (fun k => match k with 0%nat => Some "T"%char | _ => None end).

(** The arrival after two iterations: TRIGGER mode, the raw level LOW
    since the clock read 0, the stable level still HIGH. *)
Definition arrival_state : Sys :=
  state_after (sketch 2) hw_arrival (boot 90 90 90).

(** A state in CONTINUOUS mode whose last step pulse was at 100 us. *)
Definition sys_stepping : Sys :=
  mkSys CONTINUOUS 100 false false false 0 HIGH HIGH 0 0 false 0 0 0 0
        0%nat 0%nat 0%nat 0%nat.

(** A board whose clocks stand at the given values. *)
Definition hw_clock (ms us : Z) : Hardware :=
  mkHardware (fun _ => ms) (fun _ => us) (fun _ => HIGH) (fun _ => None).

(** A state in TRIGGER mode in the middle of a run-out. *)
Definition sys_run_out : Sys :=
  mkSys TRIGGER 0 false true true 100 HIGH HIGH 40 0 false 0 0 0 0
        0%nat 0%nat 0%nat 0%nat.

(** The state once a poll of the serial port has been made. *)
Definition polled (s : Sys) : Sys := set_serial_polls (S (serial_polls s)) s.

(** The levels written to a pin, in order. *)
Fixpoint pin_writes (pin : Z) (evs : list Event) : list Level :=
  match evs with
  | [] => []
  | DigitalWrite p l :: evs' =>
      if p =? pin then l :: pin_writes pin evs' else pin_writes pin evs'
  | _ :: evs' => pin_writes pin evs'
  end.

(** The clock values the sketch sees. *)
Definition millis_reading (hw : Hardware) (k : nat) : Z := to_ulong (millis_at hw k).
Definition micros_reading (hw : Hardware) (k : nat) : Z := to_ulong (micros_at hw k).

(** *** The clock readings a call of [handleStepper] uses

    [handleStepper] first reads the clock to see whether the status line is
    due, and once more when it is; the reading that decides the end of a
    run-out comes after these. *)

Definition status_due (hw : Hardware) (s : Sys) : bool :=
  1000 <? usub (millis_reading hw (millis_calls s)) (lastStatusTime s).

Definition run_out_check_time (hw : Hardware) (s : Sys) : Z :=
  millis_reading hw
    (if status_due hw s then 2 + millis_calls s else 1 + millis_calls s)%nat.

(** *** The sample and the clock readings a call of [checkIrSensor] uses

    The sample is a flip when it differs from the sample before it; a flip
    costs one reading of the clock, which becomes the time of the last
    change.  The next reading is the one compared with that time, and the
    one after it stamps the event. *)

Definition ir_sample (hw : Hardware) (s : Sys) : Level := ir_at hw (ir_reads s).

Definition ir_flipped (hw : Hardware) (s : Sys) : bool :=
  negb (Level_eqb (ir_sample hw s) (lastFlickerIrState s)).

Definition ir_change_time (hw : Hardware) (s : Sys) : Z :=
  if ir_flipped hw s then millis_reading hw (millis_calls s)
  else lastStateChangeTime s.

Definition ir_check_time (hw : Hardware) (s : Sys) : Z :=
  millis_reading hw
    (if ir_flipped hw s then 1 + millis_calls s else millis_calls s)%nat.

Definition ir_event_time (hw : Hardware) (s : Sys) : Z :=
  millis_reading hw
    (if ir_flipped hw s then 2 + millis_calls s else 1 + millis_calls s)%nat.

Definition ir_debounced (hw : Hardware) (s : Sys) : bool :=
  debounceDelay <? usub (ir_check_time hw s) (ir_change_time hw s).

(** *** The lines on the serial port

    [Serial.print] adds to the line being written, [Serial.println] ends
    it. *)

Fixpoint tx_lines_from (pending : string) (evs : list Event) : list string :=
  match evs with
  | [] => []
  | SerialPrint str :: evs' => tx_lines_from (pending ++ str) evs'
  | SerialPrintln str :: evs' => (pending ++ str)%string :: tx_lines_from "" evs'
  | _ :: evs' => tx_lines_from pending evs'
  end.

Fixpoint tx_pending (pending : string) (evs : list Event) : string :=
  match evs with
  | [] => pending
  | SerialPrint str :: evs' => tx_pending (pending ++ str) evs'
  | SerialPrintln str :: evs' => tx_pending "" evs'
  | _ :: evs' => tx_pending pending evs'
  end.

Definition tx_lines (evs : list Event) : list string := tx_lines_from "" evs.

Definition is_B_line (l : string) : bool := String.eqb l "B".
Definition is_L_line (l : string) : bool := prefix "L:" l.

(** The lines that report a beam transition. *)
Definition beam_lines (evs : list Event) : list string :=
  filter (fun l => is_B_line l || is_L_line l) (tx_lines evs).

(** Reading the lines in order with the beam [broken] or not: a "B" line is
    in order when the beam is not broken and breaks it, an "L:" line is in
    order when the beam is broken and clears it, any other line is passed
    over.  The answer is the state of the beam after the last line, or
    [None] when a line is out of order. *)
Fixpoint beam_protocol (broken : bool) (lines : list string) : option bool :=
  match lines with
  | [] => Some broken
  | l :: rest =>
      if is_B_line l then
        if broken then None else beam_protocol true rest
      else if is_L_line l then
        if broken then beam_protocol false rest else None
      else beam_protocol broken rest
  end.

(** *** The stable level over a run *)

(** The stable level before the first and after each of [n] iterations. *)
Fixpoint stable_history (n : nat) (hw : Hardware) (s : Sys) : list Level :=
  match n with
  | O => [lastStableIrState s]
  | S n' => lastStableIrState s :: stable_history n' hw (state_after loop hw s)
  end.

(** How many times a level differs from the one before it. *)
Fixpoint changes (l : list Level) : nat :=
  match l with
  | a :: (b :: _) as rest => ((if Level_eqb a b then 0 else 1) + changes rest)%nat
  | _ => 0%nat
  end.

(** *** The order of duties as the specification words it

    "First poll and debounce the sensor, then evaluate the mode state
    machine and drive the pulse generator, then poll the command channel." *)
Definition loop_sensor_first : M unit :=
  checkIrSensor ;;
  handleStepper ;;
  checkSerialCommands.

(** The same board with another beam. *)
Definition with_ir (ir : nat -> Level) (hw : Hardware) : Hardware :=
  mkHardware (millis_at hw) (micros_at hw) ir (rx_at hw).

(** *** Mode commands over a run *)

Definition is_mode_command (c : ascii) : bool :=
  ((c =? "C") || (c =? "T") || (c =? "X"))%char.

(** None of the [n] polls of the serial port made from state [s] on finds a
    mode command. *)
Definition no_mode_command (hw : Hardware) (s : Sys) (n : nat) : Prop :=
  forall k c, (serial_polls s <= k < serial_polls s + n)%nat ->
    rx_at hw k = Some c -> is_mode_command c = false.

(** The answer of [handleStepper] read off the mode and the flags. *)
Definition motor_wanted (s : Sys) : bool :=
  match currentMode s with
  | CONTINUOUS => true
  | TRIGGER => motorActiveForTrigger s || inRunOutPhase s
  | IDLE => false
  end.

(** *** The step line as a square wave *)

Definition Level_not (l : Level) : Level :=
  match l with LOW => HIGH | HIGH => LOW end.

(** The levels are [next], then the other level, and so on in turn. *)
Fixpoint alternating (next : Level) (ls : list Level) : bool :=
  match ls with
  | [] => true
  | l :: rest => Level_eqb l next && alternating (Level_not next) rest
  end.

(** *** The status line *)

Definition mode_name (m : Mode) : string :=
  match m with
  | IDLE => "IDLE"
  | CONTINUOUS => "CONTINUOUS"
  | TRIGGER => "TRIGGER"
  end.

Definition status_line (m : Mode) (active : bool) : string :=
  ("Mode: " ++ mode_name m ++ " | Motor Active: "
   ++ (if active then "YES" else "NO"))%string.

Definition is_status_line (l : string) : bool :=
  existsb (String.eqb l)
    [status_line IDLE false; status_line IDLE true;
     status_line CONTINUOUS false; status_line CONTINUOUS true;
     status_line TRIGGER false; status_line TRIGGER true].

Definition status_lines (evs : list Event) : list string :=
  filter is_status_line (tx_lines evs).

(** *** The lines a host can receive *)

Definition known_line (l : string) : Prop :=
  l = "Master Controller V4 Initialized. Mode: IDLE"%string \/
  l = "B"%string \/
  (exists d, 0 <= d < ULONG_MAX1 /\ l = ("L:" ++ String_of_ulong d)%string) \/
  In l ["Mode: CONTINUOUS"; "Mode: TRIGGER"; "Mode: IDLE (Stopped)"]%string \/
  (exists m active, l = status_line m active).

(** *** The servo writes of the sketch *)

Definition gate_angle (g : Servo) : Z :=
  match g with
  | servo1 => 45
  | servo2 => 90
  | servo3 => 135
  end.

(** A servo is written its own gate angle or 0, and a delay is 1000 ms. *)
Definition gate_event_ok (e : Event) : Prop :=
  match e with
  | ServoWrite g a => a = 0 \/ a = gate_angle g
  | Delay ms => ms = 1000
  | _ => True
  end.

(** *** What holds of every state the sketch reaches *)

Definition consistent (s : Sys) : Prop :=
  (inRunOutPhase s = true -> motorActiveForTrigger s = true) /\
  (currentMode s = IDLE ->
     motorActiveForTrigger s = false /\ inRunOutPhase s = false) /\
  beamIsBroken s = Level_eqb (lastStableIrState s) LOW /\
  (forall g, servo_angle g s = 0).

(** * The IR trigger and sorter sketch

    The earlier sketch of the repository, "Wood Sorting System - IR Trigger
    and Sorter Control": it reports a broken beam with "B" and opens a gate
    on '1', '2' or '3'; it has no modes and does not drive the stepper.
    Its pins are those of the master controller. *)

Declare Scope sorter_scope.

Module IrTriggerAndSort.

Record Sys : Set := mkSys {
  lastIrState : Level;
  lastTriggerTime : Z;
  servo1_angle : Z;
  servo2_angle : Z;
  servo3_angle : Z;
  millis_calls : nat;
  ir_reads : nat;
  serial_polls : nat
}.

Definition boot (a1 a2 a3 : Z) : Sys :=
  mkSys HIGH 0 a1 a2 a3 0%nat 0%nat 0%nat.

Definition debounceDelay : Z := 50.

Definition set_lastIrState (v : Level) (s : Sys) : Sys :=
  let (_, f2, f3, f4, f5, f6, f7, f8) := s in mkSys v f2 f3 f4 f5 f6 f7 f8.
Definition set_lastTriggerTime (v : Z) (s : Sys) : Sys :=
  let (f1, _, f3, f4, f5, f6, f7, f8) := s in mkSys f1 v f3 f4 f5 f6 f7 f8.
Definition set_servo1_angle (v : Z) (s : Sys) : Sys :=
  let (f1, f2, _, f4, f5, f6, f7, f8) := s in mkSys f1 f2 v f4 f5 f6 f7 f8.
Definition set_servo2_angle (v : Z) (s : Sys) : Sys :=
  let (f1, f2, f3, _, f5, f6, f7, f8) := s in mkSys f1 f2 f3 v f5 f6 f7 f8.
Definition set_servo3_angle (v : Z) (s : Sys) : Sys :=
  let (f1, f2, f3, f4, _, f6, f7, f8) := s in mkSys f1 f2 f3 f4 v f6 f7 f8.
Definition set_millis_calls (v : nat) (s : Sys) : Sys :=
  let (f1, f2, f3, f4, f5, _, f7, f8) := s in mkSys f1 f2 f3 f4 f5 v f7 f8.
Definition set_ir_reads (v : nat) (s : Sys) : Sys :=
  let (f1, f2, f3, f4, f5, f6, _, f8) := s in mkSys f1 f2 f3 f4 f5 f6 v f8.
Definition set_serial_polls (v : nat) (s : Sys) : Sys :=
  let (f1, f2, f3, f4, f5, f6, f7, _) := s in mkSys f1 f2 f3 f4 f5 f6 f7 v.

Definition servo_angle (g : Servo) (s : Sys) : Z :=
  match g with
  | servo1 => servo1_angle s
  | servo2 => servo2_angle s
  | servo3 => servo3_angle s
  end.

Definition set_servo_angle (g : Servo) (v : Z) (s : Sys) : Sys :=
  match g with
  | servo1 => set_servo1_angle v s
  | servo2 => set_servo2_angle v s
  | servo3 => set_servo3_angle v s
  end.

Definition M (A : Type) : Type := Hardware -> Sys -> A * Sys * list Event.

Definition ret {A} (a : A) : M A := fun _ s => (a, s, []).

Definition bind {A B} (m : M A) (k : A -> M B) : M B :=
  fun hw s =>
    let '(a, s1, e1) := m hw s in
    let '(b, s2, e2) := k a hw s1 in
    (b, s2, e1 ++ e2).

Notation "x <- m ;; k" := (bind m (fun x => k))
  (at level 61, m at next level, right associativity) : sorter_scope.
Notation "m ;; k" := (bind m (fun _ => k))
  (at level 61, right associativity) : sorter_scope.

Local Open Scope sorter_scope.

Definition gets {A} (f : Sys -> A) : M A := fun _ s => (f s, s, []).
Definition modify (f : Sys -> Sys) : M unit := fun _ s => (tt, f s, []).
Definition emit (e : Event) : M unit := fun _ s => (tt, s, [e]).

Definition state_after {A} (m : M A) (hw : Hardware) (s : Sys) : Sys := snd (fst (m hw s)).
Definition events {A} (m : M A) (hw : Hardware) (s : Sys) : list Event := snd (m hw s).

Definition millis : M Z := fun hw s =>
  (to_ulong (millis_at hw (millis_calls s)),
   set_millis_calls (S (millis_calls s)) s, []).

Definition digitalRead (pin : Z) : M Level := fun hw s =>
  (ir_at hw (ir_reads s), set_ir_reads (S (ir_reads s)) s, []).

Definition digitalWrite (pin : Z) (l : Level) : M unit := emit (DigitalWrite pin l).

Definition Serial_poll : M (option ascii) := fun hw s =>
  (rx_at hw (serial_polls s), set_serial_polls (S (serial_polls s)) s, []).

Definition Serial_println (str : string) : M unit := emit (SerialPrintln str).

Definition Servo_write (g : Servo) (angle : Z) : M unit :=
  modify (set_servo_angle g angle) ;; emit (ServoWrite g angle).

Definition delay (ms : Z) : M unit := emit (Delay ms).

Definition setup : M unit :=
  emit (SerialBegin 9600) ;;
  emit (SetPinMode IR_SENSOR_PIN INPUT_PULLUP) ;;
  emit (SetPinMode STEPPER_ENA_PIN OUTPUT) ;;
  emit (SetPinMode STEPPER_DIR_PIN OUTPUT) ;;
  emit (SetPinMode STEPPER_STEP_PIN OUTPUT) ;;
  digitalWrite STEPPER_ENA_PIN HIGH ;;
  emit (ServoAttach servo1 SERVO_1_PIN) ;;
  emit (ServoAttach servo2 SERVO_2_PIN) ;;
  emit (ServoAttach servo3 SERVO_3_PIN) ;;
  Servo_write servo1 0 ;;
  Servo_write servo2 0 ;;
  Servo_write servo3 0.

(** The condition is [currentIrState != lastIrState && (millis() -
    lastTriggerTime) > debounceDelay]: the clock is read only when the
    sample differs. *)
Definition checkIrSensor : M unit :=
  currentIrState <- digitalRead IR_SENSOR_PIN ;;
  lastIr <- gets lastIrState ;;
  accepted <-
    (if negb (Level_eqb currentIrState lastIr) then
       now <- millis ;;
       last <- gets lastTriggerTime ;;
       ret (debounceDelay <? usub now last)
     else ret false) ;;
  if accepted then
    match currentIrState with
    | LOW =>
        Serial_println "B" ;;
        now <- millis ;;
        modify (set_lastTriggerTime now)
    | HIGH => ret tt
    end ;;
    modify (set_lastIrState currentIrState)
  else ret tt.

Definition activateServoGate (gateServo : Servo) : M unit :=
  Servo_write gateServo 90 ;;
  delay 1000 ;;
  Servo_write gateServo 0.

Definition checkSerialCommands : M unit :=
  available <- Serial_poll ;;
  match available with
  | None => ret tt
  | Some command =>
      if (command =? "1")%char then activateServoGate servo1
      else if (command =? "2")%char then activateServoGate servo2
      else if (command =? "3")%char then activateServoGate servo3
      else ret tt
  end.

Definition loop : M unit :=
  checkIrSensor ;;
  checkSerialCommands.

Fixpoint loops (n : nat) : M unit :=
  match n with
  | O => ret tt
  | S n' => loop ;; loops n'
  end.

Definition sketch (n : nat) : M unit := setup ;; loops n.

(** A state with the beam reported broken when the clock read 500. *)
Definition sys_broken : Sys := mkSys LOW 500 0 0 0 0%nat 0%nat 0%nat.

End IrTriggerAndSort.

(** * The servo calibration sketch

    "Calibration": four servos moved together on commands from the host,
    every byte received being echoed first. *)

Declare Scope calibration_scope.

Module Calibration.

Inductive Servo : Set := servo1 | servo2 | servo3 | servo4.

Definition SERVO_4_PIN : Z := 5.

Inductive Event : Set :=
| SerialBegin (baud : Z)
| ServoAttach (g : Servo) (pin : Z)
| ServoWrite (g : Servo) (angle : Z)
| Delay (ms : Z)
| SerialPrintln (s : string).

Record Sys : Set := mkSys {
  currentMode : Mode;
  servo1_angle : Z;
  servo2_angle : Z;
  servo3_angle : Z;
  servo4_angle : Z;
  serial_polls : nat
}.

Definition boot (a1 a2 a3 a4 : Z) : Sys := mkSys IDLE a1 a2 a3 a4 0%nat.

Definition set_currentMode (v : Mode) (s : Sys) : Sys :=
  let (_, f2, f3, f4, f5, f6) := s in mkSys v f2 f3 f4 f5 f6.
Definition set_servo1_angle (v : Z) (s : Sys) : Sys :=
  let (f1, _, f3, f4, f5, f6) := s in mkSys f1 v f3 f4 f5 f6.
Definition set_servo2_angle (v : Z) (s : Sys) : Sys :=
  let (f1, f2, _, f4, f5, f6) := s in mkSys f1 f2 v f4 f5 f6.
Definition set_servo3_angle (v : Z) (s : Sys) : Sys :=
  let (f1, f2, f3, _, f5, f6) := s in mkSys f1 f2 f3 v f5 f6.
Definition set_servo4_angle (v : Z) (s : Sys) : Sys :=
  let (f1, f2, f3, f4, _, f6) := s in mkSys f1 f2 f3 f4 v f6.
Definition set_serial_polls (v : nat) (s : Sys) : Sys :=
  let (f1, f2, f3, f4, f5, _) := s in mkSys f1 f2 f3 f4 f5 v.

Definition servo_angle (g : Servo) (s : Sys) : Z :=
  match g with
  | servo1 => servo1_angle s
  | servo2 => servo2_angle s
  | servo3 => servo3_angle s
  | servo4 => servo4_angle s
  end.

Definition set_servo_angle (g : Servo) (v : Z) (s : Sys) : Sys :=
  match g with
  | servo1 => set_servo1_angle v s
  | servo2 => set_servo2_angle v s
  | servo3 => set_servo3_angle v s
  | servo4 => set_servo4_angle v s
  end.

Definition M (A : Type) : Type := Hardware -> Sys -> A * Sys * list Event.

Definition ret {A} (a : A) : M A := fun _ s => (a, s, []).

Definition bind {A B} (m : M A) (k : A -> M B) : M B :=
  fun hw s =>
    let '(a, s1, e1) := m hw s in
    let '(b, s2, e2) := k a hw s1 in
    (b, s2, e1 ++ e2).

Notation "x <- m ;; k" := (bind m (fun x => k))
  (at level 61, m at next level, right associativity) : calibration_scope.
Notation "m ;; k" := (bind m (fun _ => k))
  (at level 61, right associativity) : calibration_scope.

Local Open Scope calibration_scope.

Definition modify (f : Sys -> Sys) : M unit := fun _ s => (tt, f s, []).
Definition emit (e : Event) : M unit := fun _ s => (tt, s, [e]).

Definition state_after {A} (m : M A) (hw : Hardware) (s : Sys) : Sys := snd (fst (m hw s)).
Definition events {A} (m : M A) (hw : Hardware) (s : Sys) : list Event := snd (m hw s).

Definition Serial_poll : M (option ascii) := fun hw s =>
  (rx_at hw (serial_polls s), set_serial_polls (S (serial_polls s)) s, []).

Definition Serial_println (str : string) : M unit := emit (SerialPrintln str).

(** [Serial.println(c)] for a [char]: the character, then the end of line. *)
Definition Serial_println_char (c : ascii) : M unit :=
  emit (SerialPrintln (String c EmptyString)).

Definition Servo_write (g : Servo) (angle : Z) : M unit :=
  modify (set_servo_angle g angle) ;; emit (ServoWrite g angle).

Definition delay (ms : Z) : M unit := emit (Delay ms).

Definition setup : M unit :=
  emit (SerialBegin 9600) ;;
  emit (ServoAttach servo1 SERVO_1_PIN) ;;
  emit (ServoAttach servo2 SERVO_2_PIN) ;;
  emit (ServoAttach servo3 SERVO_3_PIN) ;;
  emit (ServoAttach servo4 SERVO_4_PIN) ;;
  Servo_write servo1 90 ;;
  Servo_write servo2 90 ;;
  Servo_write servo3 90 ;;
  Servo_write servo4 90 ;;
  Serial_println "Servo Controller Initialized. Mode: IDLE".

Definition activateAllServos (angle : Z) : M unit :=
  Servo_write servo1 angle ;;
  Servo_write servo2 angle ;;
  Servo_write servo3 angle ;;
  Servo_write servo4 angle ;;
  delay 1000.

Definition checkSerialCommands : M unit :=
  available <- Serial_poll ;;
  match available with
  | None => ret tt
  | Some command =>
      Serial_println_char command ;;
      if (command =? "1")%char then activateAllServos 90
      else if (command =? "2")%char then activateAllServos 45
      else if (command =? "3")%char then activateAllServos 135
      else if (command =? "0")%char then activateAllServos 0
      else if (command =? "C")%char then modify (set_currentMode CONTINUOUS)
      else if (command =? "T")%char then modify (set_currentMode TRIGGER)
      else if (command =? "X")%char then
        modify (set_currentMode IDLE) ;;
        activateAllServos 90
      else ret tt
  end.

Definition loop : M unit := checkSerialCommands.

Fixpoint loops (n : nat) : M unit :=
  match n with
  | O => ret tt
  | S n' => loop ;; loops n'
  end.

Definition sketch (n : nat) : M unit := setup ;; loops n.

(** The lines sent, one per [Serial.println]. *)
Definition tx_lines (evs : list Event) : list string :=
  flat_map (fun e => match e with SerialPrintln l => [l] | _ => [] end) evs.

(** The bytes the [n] polls made from state [s] on find, in order. *)
Fixpoint received (hw : Hardware) (from n : nat) : list ascii :=
  match n with
  | O => []
  | S n' =>
      match rx_at hw from with
      | Some c => c :: received hw (S from) n'
      | None => received hw (S from) n'
      end
  end.

(** The angle a command byte asks for, if it moves the servos. *)
Definition commanded_angle (c : ascii) : option Z :=
  if (c =? "1")%char then Some 90
  else if (c =? "2")%char then Some 45
  else if (c =? "3")%char then Some 135
  else if (c =? "0")%char then Some 0
  else if (c =? "X")%char then Some 90
  else None.

(** The angle the servos are left at by the bytes [cs], from [start]. *)
Definition final_angle (start : Z) (cs : list ascii) : Z :=
  fold_left
    (fun a c => match commanded_angle c with Some a' => a' | None => a end)
    cs start.

End Calibration.

(** ** Proof tools *)

Arguments to_ulong : simpl never.
Arguments usub : simpl never.
Arguments String_of_ulong : simpl never.

(** Unfold a routine down to the runtime calls and run it on a state whose
    fields are known. *)
Ltac run_sketch :=
  cbv [result state_after events
       sketch loops loop setup
       handleStepper handleStepper_printStatus handleStepper_shouldBeActive
       handleStepper_pulse handleStepper_status
       checkIrSensor checkSerialCommands activateServoGate
       Servo_write delay Serial_print Serial_println Serial_poll
       digitalWrite digitalRead millis micros
       bind ret gets modify emit
       servo_angle set_servo_angle
       set_currentMode set_lastStepTime set_stepState
       set_motorActiveForTrigger set_inRunOutPhase set_runOutStartTime
       set_lastStableIrState set_lastFlickerIrState set_lastStateChangeTime
       set_beamBrokenStartTime set_beamIsBroken set_lastStatusTime
       set_servo1_angle set_servo2_angle set_servo3_angle
       set_millis_calls set_micros_calls set_ir_reads set_serial_polls
       currentMode lastStepTime stepState motorActiveForTrigger inRunOutPhase
       runOutStartTime lastStableIrState lastFlickerIrState
       lastStateChangeTime beamBrokenStartTime beamIsBroken lastStatusTime
       servo1_angle servo2_angle servo3_angle
       millis_calls micros_calls ir_reads serial_polls
       millis_reading micros_reading polled
       status_due run_out_check_time
       ir_sample ir_flipped ir_change_time ir_check_time ir_event_time ir_debounced
       stepInterval runOutDuration debounceDelay Nat.add
       Level_eqb Mode_eqb Level_of_bool negb andb orb
       fst snd app].

Ltac split_cond :=
  match goal with
  | |- context [rx_at ?hw ?k] => destruct (rx_at hw k)
  | |- context [ir_at ?hw ?k] => destruct (ir_at hw k)
  | |- context [if ?b then _ else _] => is_var b; destruct b
  | |- context [match ?l with LOW => _ | HIGH => _ end] => is_var l; destruct l
  | |- context [match ?m with IDLE => _ | CONTINUOUS => _ | TRIGGER => _ end] =>
      is_var m; destruct m
  | |- context [Ascii.eqb ?a ?b] => destruct (Ascii.eqb a b)
  | |- context [Z.ltb ?a ?b] => destruct (Z.ltb_spec a b)
  | |- context [Z.leb ?a ?b] => destruct (Z.leb_spec a b)
  end.

Ltac exec_sketch := run_sketch; repeat (split_cond; run_sketch).

Ltac finish_leaf :=
  repeat split; intros; subst;
  try reflexivity; try discriminate; try congruence; try lia.

(** ** Sequencing *)

Lemma state_after_seq {A B} (m : M A) (k : M B) hw s :
  state_after (m ;; k) hw s = state_after k hw (state_after m hw s).
Proof.
  unfold state_after, bind. destruct (m hw s) as [[a s1] e1].
  cbn. destruct (k hw s1) as [[b s2] e2]. reflexivity.
Qed.

Lemma events_seq {A B} (m : M A) (k : M B) hw s :
  events (m ;; k) hw s = events m hw s ++ events k hw (state_after m hw s).
Proof.
  unfold events, state_after, bind. destruct (m hw s) as [[a s1] e1].
  cbn. destruct (k hw s1) as [[b s2] e2]. reflexivity.
Qed.

Lemma pin_writes_app pin e1 e2 :
  pin_writes pin (e1 ++ e2) = pin_writes pin e1 ++ pin_writes pin e2.
Proof.
  induction e1 as [| e e1 IH]; [reflexivity | ].
  destruct e; cbn; auto. destruct (pin0 =? pin); cbn; now rewrite IH.
Qed.

Lemma events_loops_S n hw s :
  events (loops (S n)) hw s
    = events loop hw s ++ events (loops n) hw (state_after loop hw s).
Proof. cbn [loops]. apply events_seq. Qed.

Lemma state_after_loops_S n hw s :
  state_after (loops (S n)) hw s = state_after (loops n) hw (state_after loop hw s).
Proof. cbn [loops]. apply state_after_seq. Qed.

(** ** Numerals and lines *)

Lemma usub_range a b : 0 <= usub a b < ULONG_MAX1.
Proof. unfold usub, to_ulong. apply Z.mod_pos_bound. reflexivity. Qed.

Lemma String_of_ulong_parse d : 0 <= d -> parse_ulong (String_of_ulong d) = Some d.
Proof.
  intros Hd. unfold parse_ulong, String_of_ulong.
  rewrite NilZero.usu.
  - cbn [option_map]. rewrite DecimalN.Unsigned.of_to. now rewrite Z2N.id.
  - destruct (Z.to_N d); [discriminate | apply DecimalPos.Unsigned.to_uint_nonnil].
Qed.

Lemma Level_eqb_refl a : Level_eqb a a = true.
Proof. now destruct a. Qed.

Lemma Level_eqb_eq a b : Level_eqb a b = true -> a = b.
Proof. destruct a, b; (reflexivity || discriminate). Qed.

Lemma changes_history a n hw s :
  changes (a :: stable_history n hw s)
    = ((if Level_eqb a (lastStableIrState s) then 0 else 1)
       + changes (stable_history n hw s))%nat.
Proof. destruct n; reflexivity. Qed.

Lemma tx_lines_from_app e1 : forall p e2,
  tx_lines_from p (e1 ++ e2)
    = tx_lines_from p e1 ++ tx_lines_from (tx_pending p e1) e2.
Proof.
  induction e1 as [| e e1 IH]; intros p e2; [reflexivity | ].
  destruct e; cbn; rewrite ?IH; reflexivity.
Qed.

Lemma tx_pending_app e1 : forall p e2,
  tx_pending p (e1 ++ e2) = tx_pending (tx_pending p e1) e2.
Proof.
  induction e1 as [| e e1 IH]; intros p e2; [reflexivity | ].
  destruct e; cbn; rewrite ?IH; reflexivity.
Qed.

Lemma tx_lines_app e1 e2 :
  tx_pending "" e1 = ""%string -> tx_lines (e1 ++ e2) = tx_lines e1 ++ tx_lines e2.
Proof. intros H. unfold tx_lines. now rewrite tx_lines_from_app, H. Qed.

Lemma beam_lines_app e1 e2 :
  tx_pending "" e1 = ""%string -> beam_lines (e1 ++ e2) = beam_lines e1 ++ beam_lines e2.
Proof. intros H. unfold beam_lines. now rewrite tx_lines_app, filter_app. Qed.

Lemma beam_protocol_app l1 : forall b l2,
  beam_protocol b (l1 ++ l2)
    = match beam_protocol b l1 with
      | Some b' => beam_protocol b' l2
      | None => None
      end.
Proof.
  induction l1 as [| l l1 IH]; intros b l2; [reflexivity | ].
  cbn. destruct (is_B_line l), (is_L_line l), b; auto.
Qed.

Lemma beam_protocol_filter l : forall b,
  beam_protocol b l
    = beam_protocol b (filter (fun l => is_B_line l || is_L_line l) l).
Proof.
  induction l as [| x l IH]; intros b; [reflexivity | ].
  cbn. destruct (is_B_line x) eqn:EB, (is_L_line x) eqn:EL; cbn;
    rewrite ?EB, ?EL; destruct b; auto.
Qed.

Lemma is_L_line_L str : is_L_line ("L:" ++ str) = true.
Proof. unfold is_L_line. cbn. now destruct str. Qed.

Lemma beam_lines_L str :
  beam_lines [SerialPrintln ("L:" ++ str)] = [("L:" ++ str)%string].
Proof.
  unfold beam_lines, tx_lines. cbn [tx_lines_from filter].
  change ("" ++ ("L:" ++ str))%string with ("L:" ++ str)%string.
  now rewrite is_L_line_L, orb_true_r.
Qed.

Lemma beam_protocol_L x : beam_protocol true [("L:" ++ x)%string] = Some false.
Proof.
  cbn [beam_protocol]. rewrite is_L_line_L. reflexivity.
Qed.

(** ** What each routine leaves alone *)

Lemma handleStepper_frame hw s :
  let s' := state_after handleStepper hw s in
  currentMode s' = currentMode s /\
  runOutStartTime s' = runOutStartTime s /\
  lastStableIrState s' = lastStableIrState s /\
  lastFlickerIrState s' = lastFlickerIrState s /\
  lastStateChangeTime s' = lastStateChangeTime s /\
  beamBrokenStartTime s' = beamBrokenStartTime s /\
  beamIsBroken s' = beamIsBroken s /\
  (forall g, servo_angle g s' = servo_angle g s) /\
  ir_reads s' = ir_reads s /\
  serial_polls s' = serial_polls s.
Proof.
  destruct s. cbv zeta. exec_sketch.
  all: repeat split; try reflexivity; intros []; reflexivity.
Qed.

Lemma checkIrSensor_frame hw s :
  let s' := state_after checkIrSensor hw s in
  currentMode s' = currentMode s /\
  lastStepTime s' = lastStepTime s /\
  stepState s' = stepState s /\
  lastStatusTime s' = lastStatusTime s /\
  (forall g, servo_angle g s' = servo_angle g s) /\
  micros_calls s' = micros_calls s /\
  ir_reads s' = S (ir_reads s) /\
  serial_polls s' = serial_polls s /\
  (forall pin, pin_writes pin (events checkIrSensor hw s) = []).
Proof.
  destruct s. cbv zeta. exec_sketch.
  all: repeat split; try reflexivity; intros []; reflexivity.
Qed.

Lemma checkSerialCommands_frame hw s :
  let s' := state_after checkSerialCommands hw s in
  lastStepTime s' = lastStepTime s /\
  stepState s' = stepState s /\
  runOutStartTime s' = runOutStartTime s /\
  lastStableIrState s' = lastStableIrState s /\
  lastFlickerIrState s' = lastFlickerIrState s /\
  lastStateChangeTime s' = lastStateChangeTime s /\
  beamBrokenStartTime s' = beamBrokenStartTime s /\
  beamIsBroken s' = beamIsBroken s /\
  lastStatusTime s' = lastStatusTime s /\
  millis_calls s' = millis_calls s /\
  micros_calls s' = micros_calls s /\
  ir_reads s' = ir_reads s /\
  serial_polls s' = S (serial_polls s) /\
  (forall pin, pin_writes pin (events checkSerialCommands hw s) = []).
Proof.
  destruct s. cbv zeta. exec_sketch.
  all: repeat split; reflexivity.
Qed.

Lemma handleStepper_lines hw s :
  tx_pending "" (events handleStepper hw s) = ""%string /\
  beam_lines (events handleStepper hw s) = [].
Proof. destruct s. exec_sketch. all: split; reflexivity. Qed.

Lemma checkSerialCommands_lines hw s :
  tx_pending "" (events checkSerialCommands hw s) = ""%string /\
  beam_lines (events checkSerialCommands hw s) = [].
Proof. destruct s. exec_sketch. all: split; reflexivity. Qed.

Lemma setup_lines hw s :
  tx_pending "" (events setup hw s) = ""%string /\
  beam_lines (events setup hw s) = [] /\
  beamIsBroken (state_after setup hw s) = beamIsBroken s /\
  lastStableIrState (state_after setup hw s) = lastStableIrState s.
Proof. destruct s. run_sketch. repeat split. Qed.

(** ** The command handler *)

Lemma checkSerialCommands_none hw s :
  rx_at hw (serial_polls s) = None ->
  checkSerialCommands hw s = (tt, polled s, []).
Proof. destruct s. unfold polled. run_sketch. intros ->. reflexivity. Qed.

Lemma checkSerialCommands_gate hw s c g a :
  rx_at hw (serial_polls s) = Some c ->
  In (c, g, a) [("1"%char, servo1, 45); ("2"%char, servo2, 90); ("3"%char, servo3, 135)] ->
  checkSerialCommands hw s =
    (tt, set_servo_angle g 0 (polled s), [ServoWrite g a; Delay 1000; ServoWrite g 0]).
Proof.
  intros Hrx Hin. destruct s. unfold polled. revert Hrx. run_sketch. intros ->.
  cbn in Hin.
  destruct Hin as [H | [H | [H | []]]]; inversion H; subst; reflexivity.
Qed.

Lemma checkSerialCommands_other hw s c :
  rx_at hw (serial_polls s) = Some c ->
  ~ In c ["1"; "2"; "3"; "C"; "T"; "X"]%char ->
  checkSerialCommands hw s = (tt, polled s, []).
Proof.
  intros Hrx Hnot. destruct s. unfold polled. revert Hrx. run_sketch. intros ->.
  cbn in Hnot.
  repeat match goal with
  | |- context [Ascii.eqb c ?k] =>
      destruct (Ascii.eqb_spec c k) as [-> | _]; [exfalso; tauto | ]
  end.
  reflexivity.
Qed.

Lemma checkSerialCommands_C hw s :
  rx_at hw (serial_polls s) = Some "C"%char ->
  checkSerialCommands hw s =
    (tt, set_currentMode CONTINUOUS (polled s), [SerialPrintln "Mode: CONTINUOUS"]).
Proof. destruct s. unfold polled. run_sketch. intros ->. reflexivity. Qed.

Lemma checkSerialCommands_T hw s :
  rx_at hw (serial_polls s) = Some "T"%char ->
  checkSerialCommands hw s =
    (tt,
     set_inRunOutPhase false
       (set_motorActiveForTrigger false (set_currentMode TRIGGER (polled s))),
     [SerialPrintln "Mode: TRIGGER"]).
Proof. destruct s. unfold polled. run_sketch. intros ->. reflexivity. Qed.

Lemma checkSerialCommands_X hw s :
  rx_at hw (serial_polls s) = Some "X"%char ->
  checkSerialCommands hw s =
    (tt,
     set_inRunOutPhase false
       (set_motorActiveForTrigger false (set_currentMode IDLE (polled s))),
     [SerialPrintln "Mode: IDLE (Stopped)"]).
Proof. destruct s. unfold polled. run_sketch. intros ->. reflexivity. Qed.

(** C8. A command byte '1', '2' or '3' found at the poll moves gate 1, 2
    or 3 to 45, 90 or 135 degrees, waits [delay(1000)], and writes 0 to the
    same gate, in whatever state the sketch is; nothing else is done: the
    other gates, the mode and the trigger flags keep their values, and the
    state after the command is the state before it with the byte consumed
    and that gate at 0. *)
Theorem gate_command : forall hw s c g a,
  rx_at hw (serial_polls s) = Some c ->
  In (c, g, a) [("1"%char, servo1, 45); ("2"%char, servo2, 90); ("3"%char, servo3, 135)] ->
  let s' := state_after checkSerialCommands hw s in
  events checkSerialCommands hw s = [ServoWrite g a; Delay 1000; ServoWrite g 0] /\
  servo_angle g s' = 0 /\
  (forall g', g' <> g -> servo_angle g' s' = servo_angle g' s) /\
  currentMode s' = currentMode s /\
  motorActiveForTrigger s' = motorActiveForTrigger s /\
  inRunOutPhase s' = inRunOutPhase s /\
  s' = set_servo_angle g 0 (set_serial_polls (S (serial_polls s)) s).
Proof.
  intros hw s c g a Hrx Hin. cbv zeta.
  unfold state_after, events.
  rewrite (checkSerialCommands_gate hw s c g a Hrx Hin).
  destruct s, g; cbn; repeat split; try reflexivity;
    intros [] Hne; try reflexivity; now elim Hne.
Qed.

Lemma gate_command_witness :
  rx_at (hw_quiet (Some "2"%char)) (serial_polls sys_run_out) = Some "2"%char /\
  events checkSerialCommands (hw_quiet (Some "2"%char)) sys_run_out
    = [ServoWrite servo2 90; Delay 1000; ServoWrite servo2 0].
Proof.
  split; [reflexivity | ].
  apply (gate_command (hw_quiet (Some "2"%char)) sys_run_out "2"%char servo2 90).
  - reflexivity.
  - cbn. auto.
Defined.

(** C9. A byte other than '1', '2', '3', 'C', 'T', 'X' found at the poll
    is dropped: nothing is emitted, and the state after the dispatch is the
    state before it but for the count of polls. *)
Theorem unknown_byte_ignored : forall hw s c,
  rx_at hw (serial_polls s) = Some c ->
  ~ In c ["1"; "2"; "3"; "C"; "T"; "X"]%char ->
  events checkSerialCommands hw s = [] /\
  state_after checkSerialCommands hw s = set_serial_polls (S (serial_polls s)) s.
Proof.
  intros hw s c Hrx Hnot. unfold state_after, events.
  rewrite (checkSerialCommands_other hw s c Hrx Hnot). split; reflexivity.
Qed.

Lemma unknown_byte_ignored_witness :
  events checkSerialCommands (hw_quiet (Some "Z"%char)) sys_run_out = [] /\
  state_after checkSerialCommands (hw_quiet (Some "Z"%char)) sys_run_out
    = set_serial_polls 1 sys_run_out.
Proof.
  apply (unknown_byte_ignored (hw_quiet (Some "Z"%char)) sys_run_out "Z"%char).
  - reflexivity.
  - cbn. intros H. repeat (destruct H as [H | H]; [discriminate H | ]). exact H.
Defined.

(** ** The stepper handler *)

(** C3. Every evaluation of [handleStepper] drives the stepper enable line
    exactly once, active (LOW) when the motor should run and inactive
    otherwise, and consults the pulse generator (one reading of [micros])
    exactly when the motor should run, where "should run" is: true in
    CONTINUOUS, [motorActiveForTrigger || inRunOutPhase] in TRIGGER, false
    in IDLE.  The two flags are read as they stand when the line is driven,
    that is after a run-out that has lasted its time was ended by this very
    evaluation; in terms of the flags at entry, the signal in TRIGGER mode
    is their disjunction unless the run-out ends in this evaluation, in
    which case it is false. *)
Theorem handleStepper_should_run : forall hw s,
  let s' := state_after handleStepper hw s in
  let shouldRun :=
    match currentMode s with
    | CONTINUOUS => true
    | TRIGGER => motorActiveForTrigger s' || inRunOutPhase s'
    | IDLE => false
    end in
  let runOutEnds :=
    inRunOutPhase s
    && (runOutDuration <=? usub (run_out_check_time hw s) (runOutStartTime s)) in
  pin_writes STEPPER_ENA_PIN (events handleStepper hw s)
    = [if shouldRun then LOW else HIGH] /\
  micros_calls s' = ((if shouldRun then 1 else 0) + micros_calls s)%nat /\
  (shouldRun = false ->
     stepState s' = stepState s /\ lastStepTime s' = lastStepTime s /\
     pin_writes STEPPER_STEP_PIN (events handleStepper hw s) = []) /\
  (currentMode s = TRIGGER ->
     shouldRun
       = (motorActiveForTrigger s || inRunOutPhase s) && negb runOutEnds).
Proof.
  intros hw s. destruct s. cbv zeta. exec_sketch.
  all: finish_leaf.
Qed.

Lemma handleStepper_should_run_witness :
  pin_writes STEPPER_ENA_PIN (events handleStepper (hw_clock 200 0) sys_run_out)
    = [LOW] /\
  pin_writes STEPPER_ENA_PIN (events handleStepper (hw_clock 8000 0) sys_run_out)
    = [HIGH].
Proof.
  split.
  - exact (proj1 (handleStepper_should_run (hw_clock 200 0) sys_run_out)).
  - exact (proj1 (handleStepper_should_run (hw_clock 8000 0) sys_run_out)).
Defined.

(** In TRIGGER mode the flags at entry give the same answer unless the
    run-out ends in this evaluation. *)
Lemma handleStepper_trigger_flags hw s :
  let s' := state_after handleStepper hw s in
  (inRunOutPhase s = true /\
   runOutDuration <= usub (run_out_check_time hw s) (runOutStartTime s) /\
   currentMode s = TRIGGER /\
   inRunOutPhase s' = false /\ motorActiveForTrigger s' = false)
  \/
  (inRunOutPhase s' = inRunOutPhase s /\
   motorActiveForTrigger s' = motorActiveForTrigger s).
Proof.
  destruct s. cbv zeta. exec_sketch.
  all: try (right; split; reflexivity).
  all: left; finish_leaf.
Qed.

Lemma handleStepper_continuous hw s :
  currentMode s = CONTINUOUS ->
  let s' := state_after handleStepper hw s in
  pin_writes STEPPER_ENA_PIN (events handleStepper hw s) = [LOW] /\
  motorActiveForTrigger s' = motorActiveForTrigger s /\
  inRunOutPhase s' = inRunOutPhase s.
Proof.
  destruct s. cbv zeta. exec_sketch. all: finish_leaf.
Qed.

Lemma handleStepper_trigger_active hw s :
  currentMode s = TRIGGER ->
  motorActiveForTrigger s = true ->
  inRunOutPhase s = false ->
  pin_writes STEPPER_ENA_PIN (events handleStepper hw s) = [LOW].
Proof.
  destruct s. exec_sketch. all: finish_leaf.
Qed.

Lemma handleStepper_ignores_sensor ir hw s :
  handleStepper (with_ir ir hw) s = handleStepper hw s.
Proof.
  destruct hw, s. cbv [with_ir].
  run_sketch; cbv [millis_at micros_at rx_at];
    repeat (split_cond; run_sketch; cbv [millis_at micros_at rx_at]).
  all: reflexivity.
Qed.

(** C4, as the code has it.  In TRIGGER mode, an evaluation of
    [handleStepper] during a run-out at which the clock reads
    [runOutDuration] (7000 ms) or more past [runOutStartTime], by unsigned
    subtraction, ends the run-out, clears [motorActiveForTrigger] and drives
    the enable line inactive.  In CONTINUOUS and IDLE mode [handleStepper]
    does not look at the run-out and leaves both flags as they are. *)
Theorem run_out_expiry : forall hw s,
  inRunOutPhase s = true ->
  runOutDuration <= usub (run_out_check_time hw s) (runOutStartTime s) ->
  let s' := state_after handleStepper hw s in
  (currentMode s = TRIGGER ->
     inRunOutPhase s' = false /\ motorActiveForTrigger s' = false /\
     pin_writes STEPPER_ENA_PIN (events handleStepper hw s) = [HIGH]) /\
  (currentMode s <> TRIGGER ->
     inRunOutPhase s' = true /\
     motorActiveForTrigger s' = motorActiveForTrigger s).
Proof.
  intros hw s. destruct s. cbv zeta. exec_sketch.
  all: finish_leaf.
Qed.

Lemma run_out_expiry_witness :
  inRunOutPhase sys_run_out = true /\
  runOutDuration
    <= usub (run_out_check_time (hw_clock 8000 0) sys_run_out)
            (runOutStartTime sys_run_out) /\
  inRunOutPhase (state_after handleStepper (hw_clock 8000 0) sys_run_out) = false /\
  motorActiveForTrigger (state_after handleStepper (hw_clock 8000 0) sys_run_out)
    = false.
Proof.
  assert (H1 : inRunOutPhase sys_run_out = true) by reflexivity.
  assert (H2 : runOutDuration
                 <= usub (run_out_check_time (hw_clock 8000 0) sys_run_out)
                         (runOutStartTime sys_run_out))
    by (vm_compute; discriminate).
  destruct (run_out_expiry (hw_clock 8000 0) sys_run_out H1 H2) as (Htrigger & _).
  destruct (Htrigger eq_refl) as (Hr & Hm & _).
  exact (conj H1 (conj H2 (conj Hr Hm))).
Defined.

(** C4 does not hold "regardless of the current mode".  In the scripted
    session the host sends 'C' in the middle of a run-out; at the next
    iteration the clock reads more than 7000 ms past [runOutStartTime],
    and after [handleStepper], and after the whole iteration,
    [inRunOutPhase] and [motorActiveForTrigger] are still set. *)
Lemma run_out_not_ended_in_continuous :
  currentMode (session_state 5) = CONTINUOUS /\
  inRunOutPhase (session_state 5) = true /\
  runOutDuration
    <= usub (run_out_check_time hw_session (session_state 5))
            (runOutStartTime (session_state 5)) /\
  inRunOutPhase (state_after handleStepper hw_session (session_state 5)) = true /\
  motorActiveForTrigger (state_after handleStepper hw_session (session_state 5))
    = true /\
  inRunOutPhase (state_after loop hw_session (session_state 5)) = true /\
  motorActiveForTrigger (state_after loop hw_session (session_state 5)) = true.
Proof. vm_compute. repeat split. discriminate. Qed.

Lemma handleStepper_pulse_cases hw s :
  let s' := state_after handleStepper hw s in
  let ev := events handleStepper hw s in
  let now := micros_reading hw (micros_calls s) in
  (pin_writes STEPPER_STEP_PIN ev = [] /\
   lastStepTime s' = lastStepTime s /\ stepState s' = stepState s /\
   (micros_calls s <= micros_calls s')%nat)
  \/
  (pin_writes STEPPER_STEP_PIN ev = [Level_of_bool (negb (stepState s))] /\
   lastStepTime s' = now /\ stepState s' = negb (stepState s) /\
   stepInterval <= usub now (lastStepTime s) /\
   micros_calls s' = S (micros_calls s)).
Proof.
  destruct s. cbv zeta. exec_sketch.
  all: try (left; repeat split; try reflexivity; lia).
  all: right; repeat split; try reflexivity; lia.
Qed.

(** ** The mode commands *)

(** C5 does not hold for 'C'.  In the scripted session the host sends 'C'
    while the sketch is in TRIGGER mode in the middle of a run-out: the
    mode becomes CONTINUOUS, and [motorActiveForTrigger] and
    [inRunOutPhase] are both still set afterwards. *)
Lemma mode_command_C_keeps_flags :
  currentMode session_before_C = TRIGGER /\
  motorActiveForTrigger session_before_C = true /\
  inRunOutPhase session_before_C = true /\
  rx_at hw_session (serial_polls session_before_C) = Some "C"%char /\
  currentMode (state_after checkSerialCommands hw_session session_before_C)
    = CONTINUOUS /\
  motorActiveForTrigger (state_after checkSerialCommands hw_session session_before_C)
    = true /\
  inRunOutPhase (state_after checkSerialCommands hw_session session_before_C)
    = true.
Proof. vm_compute. repeat split. Qed.

(** C5, as the code has it.  'X' sets the mode to IDLE and 'T' sets it to
    TRIGGER, and both clear [motorActiveForTrigger] and [inRunOutPhase];
    'C' sets the mode to CONTINUOUS and leaves the two flags as they are,
    which is harmless: in CONTINUOUS mode [handleStepper] enables the motor
    whatever the flags say and does not change them, and the only way back
    to TRIGGER is 'T'.  Each of the three commands emits its confirmation
    line and nothing else, so a run-out in progress is dropped without an
    event of its own. *)
Theorem mode_commands : forall hw s c,
  rx_at hw (serial_polls s) = Some c ->
  let s' := state_after checkSerialCommands hw s in
  let ev := events checkSerialCommands hw s in
  (c = "X"%char ->
     currentMode s' = IDLE /\ motorActiveForTrigger s' = false /\
     inRunOutPhase s' = false /\ ev = [SerialPrintln "Mode: IDLE (Stopped)"]) /\
  (c = "T"%char ->
     currentMode s' = TRIGGER /\ motorActiveForTrigger s' = false /\
     inRunOutPhase s' = false /\ ev = [SerialPrintln "Mode: TRIGGER"]) /\
  (c = "C"%char ->
     currentMode s' = CONTINUOUS /\
     motorActiveForTrigger s' = motorActiveForTrigger s /\
     inRunOutPhase s' = inRunOutPhase s /\
     ev = [SerialPrintln "Mode: CONTINUOUS"] /\
     forall hw1,
       pin_writes STEPPER_ENA_PIN (events handleStepper hw1 s') = [LOW] /\
       motorActiveForTrigger (state_after handleStepper hw1 s')
         = motorActiveForTrigger s /\
       inRunOutPhase (state_after handleStepper hw1 s') = inRunOutPhase s).
Proof.
  intros hw s c Hrx. cbv zeta.
  assert (Hrun : forall s1 e1, checkSerialCommands hw s = (tt, s1, e1) ->
            state_after checkSerialCommands hw s = s1 /\
            events checkSerialCommands hw s = e1)
    by (intros s1 e1 E; unfold state_after, events; now rewrite E).
  repeat apply conj; intros; subst c.
  - destruct (Hrun _ _ (checkSerialCommands_X hw s Hrx)) as [-> ->].
    destruct s; repeat split.
  - destruct (Hrun _ _ (checkSerialCommands_T hw s Hrx)) as [-> ->].
    destruct s; repeat split.
  - destruct (Hrun _ _ (checkSerialCommands_C hw s Hrx)) as [-> ->].
    repeat apply conj; try (destruct s; reflexivity).
    intros hw1.
    destruct (handleStepper_continuous hw1 (set_currentMode CONTINUOUS (polled s)))
      as (He & Hm & Hr); [destruct s; reflexivity | ].
    rewrite He, Hm, Hr. destruct s; repeat split.
Qed.

Lemma mode_commands_witness :
  rx_at (hw_quiet (Some "X"%char)) (serial_polls sys_run_out) = Some "X"%char /\
  currentMode (state_after checkSerialCommands (hw_quiet (Some "X"%char)) sys_run_out)
    = IDLE /\
  inRunOutPhase (state_after checkSerialCommands (hw_quiet (Some "X"%char)) sys_run_out)
    = false.
Proof.
  split; [reflexivity | ].
  destruct (mode_commands (hw_quiet (Some "X"%char)) sys_run_out "X"%char eq_refl)
    as [HX _].
  destruct (HX eq_refl) as (Hm & _ & Hr & _).
  split; [exact Hm | exact Hr].
Defined.

(** ** The sensor *)

Lemma checkIrSensor_cases hw s :
  let s' := state_after checkIrSensor hw s in
  let ev := events checkIrSensor hw s in
  lastFlickerIrState s' = ir_sample hw s /\
  lastStateChangeTime s' = ir_change_time hw s /\
  (((ir_debounced hw s = false \/ ir_sample hw s = lastStableIrState s) /\
    lastStableIrState s' = lastStableIrState s /\ ev = [] /\
    beamIsBroken s' = beamIsBroken s /\
    beamBrokenStartTime s' = beamBrokenStartTime s /\
    motorActiveForTrigger s' = motorActiveForTrigger s /\
    inRunOutPhase s' = inRunOutPhase s /\
    runOutStartTime s' = runOutStartTime s)
   \/
   (ir_debounced hw s = true /\ ir_sample hw s = LOW /\
    lastStableIrState s = HIGH /\ lastStableIrState s' = LOW /\
    ev = [SerialPrintln "B"] /\
    beamIsBroken s' = true /\
    beamBrokenStartTime s' = ir_event_time hw s /\
    (currentMode s = TRIGGER ->
       motorActiveForTrigger s' = true /\ inRunOutPhase s' = false))
   \/
   (ir_debounced hw s = true /\ ir_sample hw s = HIGH /\
    lastStableIrState s = LOW /\ lastStableIrState s' = HIGH /\
    ev = (if beamIsBroken s
          then [SerialPrintln
                  ("L:" ++ String_of_ulong
                             (usub (ir_event_time hw s) (beamBrokenStartTime s)))]
          else []) /\
    beamIsBroken s' = false /\
    beamBrokenStartTime s' = beamBrokenStartTime s /\
    motorActiveForTrigger s' = motorActiveForTrigger s)).
Proof.
  destruct s. cbv zeta. exec_sketch.
  all: split; [reflexivity | split; [reflexivity | ]].
  all: try (left; repeat split; try reflexivity; auto; fail).
  all: try (right; left; repeat split; try reflexivity; discriminate).
  all: right; right; repeat split; reflexivity.
Qed.

(** A sample that flips the raw level is not accepted when the clock moves
    no more than [debounceDelay] between the two readings taken for it,
    and a sample that agrees with the stable level never is. *)
Lemma checkIrSensor_not_accepted hw s :
  (ir_sample hw s <> lastFlickerIrState s /\
   usub (millis_reading hw (1 + millis_calls s)) (millis_reading hw (millis_calls s))
     <= debounceDelay)
  \/ ir_sample hw s = lastStableIrState s ->
  lastStableIrState (state_after checkIrSensor hw s) = lastStableIrState s /\
  events checkIrSensor hw s = [] /\
  beamIsBroken (state_after checkIrSensor hw s) = beamIsBroken s.
Proof.
  intros Hwhy.
  destruct (checkIrSensor_cases hw s) as (_ & _ & [H | [H | H]]).
  - destruct H as (_ & Hs & He & Hb & _). auto.
  - exfalso. destruct H as (Hd & Hl & Hs & _).
    destruct Hwhy as [(Hflip & Hgap) | Hsame]; [ | congruence].
    revert Hd Hflip Hgap.
    unfold ir_debounced, ir_check_time, ir_change_time, ir_flipped.
    destruct (ir_sample hw s), (lastFlickerIrState s); cbn [Level_eqb negb];
      try congruence; intros Hd _ Hgap; apply Z.ltb_lt in Hd; lia.
  - exfalso. destruct H as (Hd & Hl & Hs & _).
    destruct Hwhy as [(Hflip & Hgap) | Hsame]; [ | congruence].
    revert Hd Hflip Hgap.
    unfold ir_debounced, ir_check_time, ir_change_time, ir_flipped.
    destruct (ir_sample hw s), (lastFlickerIrState s); cbn [Level_eqb negb];
      try congruence; intros Hd _ Hgap; apply Z.ltb_lt in Hd; lia.
Qed.

Lemma checkIrSensor_beam hw s :
  let s' := state_after checkIrSensor hw s in
  let ev := events checkIrSensor hw s in
  tx_pending "" ev = ""%string /\
  ((lastStableIrState s' = lastStableIrState s /\ beam_lines ev = [] /\
    beamIsBroken s' = beamIsBroken s)
   \/
   (ir_sample hw s = LOW /\ lastStableIrState s = HIGH /\
    lastStableIrState s' = LOW /\ beam_lines ev = ["B"%string] /\
    beamIsBroken s' = true)
   \/
   (ir_sample hw s = HIGH /\ lastStableIrState s = LOW /\
    lastStableIrState s' = HIGH /\ beamIsBroken s' = false /\
    beam_lines ev =
      if beamIsBroken s
      then [("L:" ++ String_of_ulong
                       (usub (ir_event_time hw s) (beamBrokenStartTime s)))%string]
      else [])).
Proof.
  cbv zeta.
  destruct (checkIrSensor_cases hw s) as (_ & _ & [H | [H | H]]).
  - destruct H as (_ & Hs & -> & Hb & _). split; [reflexivity | ]. left. auto.
  - destruct H as (_ & Hl & Hs & Hs' & -> & Hb & _).
    split; [reflexivity | ]. right; left. auto.
  - destruct H as (_ & Hl & Hs & Hs' & -> & Hb & _).
    split; [now destruct (beamIsBroken s) | ]. right; right.
    repeat split; auto.
    destruct (beamIsBroken s); [apply beam_lines_L | reflexivity].
Qed.

(** ** One iteration of the loop *)

Lemma loop_pin_writes pin hw s :
  pin_writes pin (events loop hw s) = pin_writes pin (events handleStepper hw s).
Proof.
  unfold loop. rewrite !events_seq, !pin_writes_app.
  destruct (checkIrSensor_frame hw (state_after handleStepper hw s))
    as (_ & _ & _ & _ & _ & _ & _ & _ & Hw1).
  destruct (checkSerialCommands_frame hw
              (state_after checkIrSensor hw (state_after handleStepper hw s)))
    as (_ & _ & _ & _ & _ & _ & _ & _ & _ & _ & _ & _ & _ & Hw2).
  now rewrite Hw1, Hw2, !app_nil_r.
Qed.

Lemma loop_pulse_cases hw s :
  let s' := state_after loop hw s in
  let ev := events loop hw s in
  let now := micros_reading hw (micros_calls s) in
  (pin_writes STEPPER_STEP_PIN ev = [] /\
   lastStepTime s' = lastStepTime s /\ stepState s' = stepState s /\
   (micros_calls s <= micros_calls s')%nat)
  \/
  (pin_writes STEPPER_STEP_PIN ev = [Level_of_bool (negb (stepState s))] /\
   lastStepTime s' = now /\ stepState s' = negb (stepState s) /\
   stepInterval <= usub now (lastStepTime s) /\
   micros_calls s' = S (micros_calls s)).
Proof.
  cbv zeta. unfold loop.
  rewrite !state_after_seq, !events_seq, !pin_writes_app.
  set (s1 := state_after handleStepper hw s).
  set (s2 := state_after checkIrSensor hw s1).
  destruct (checkIrSensor_frame hw s1) as (_ & Ht1 & Hp1 & _ & _ & Hm1 & _ & _ & Hw1).
  destruct (checkSerialCommands_frame hw s2)
    as (Ht2 & Hp2 & _ & _ & _ & _ & _ & _ & _ & _ & Hm2 & _ & _ & Hw2).
  fold s2 in Ht1, Hp1, Hm1.
  rewrite Hw1, Hw2, Ht2, Hp2, Hm2, Ht1, Hp1, Hm1, !app_nil_r.
  exact (handleStepper_pulse_cases hw s).
Qed.

(** What an iteration does to the sensor's variables and to the lines is
    what its poll of the sensor does. *)
Lemma loop_sensor_view hw s :
  let s1 := state_after handleStepper hw s in
  let s2 := state_after checkIrSensor hw s1 in
  let s' := state_after loop hw s in
  lastStableIrState s1 = lastStableIrState s /\
  lastFlickerIrState s1 = lastFlickerIrState s /\
  beamIsBroken s1 = beamIsBroken s /\
  beamBrokenStartTime s1 = beamBrokenStartTime s /\
  ir_sample hw s1 = ir_at hw (ir_reads s) /\
  lastStableIrState s' = lastStableIrState s2 /\
  lastFlickerIrState s' = lastFlickerIrState s2 /\
  beamIsBroken s' = beamIsBroken s2 /\
  beamBrokenStartTime s' = beamBrokenStartTime s2 /\
  ir_reads s' = S (ir_reads s) /\
  tx_pending "" (events loop hw s) = ""%string /\
  beam_lines (events loop hw s) = beam_lines (events checkIrSensor hw s1).
Proof.
  cbv zeta. unfold loop.
  rewrite !state_after_seq, !events_seq.
  set (s1 := state_after handleStepper hw s).
  set (s2 := state_after checkIrSensor hw s1).
  destruct (handleStepper_lines hw s) as (Hp0 & Hl0).
  destruct (handleStepper_frame hw s)
    as (_ & _ & Hst0 & Hfl0 & _ & Hbt0 & Hb0 & _ & Hir0 & _).
  fold s1 in Hst0, Hfl0, Hbt0, Hb0, Hir0.
  destruct (checkSerialCommands_lines hw s2) as (Hp2 & Hl2).
  destruct (checkSerialCommands_frame hw s2)
    as (_ & _ & _ & Hst2 & Hfl2 & _ & Hbt2 & Hb2 & _ & _ & _ & Hir2 & _).
  destruct (checkIrSensor_frame hw s1) as (_ & _ & _ & _ & _ & _ & Hir1 & _).
  fold s2 in Hir1.
  destruct (checkIrSensor_beam hw s1) as (Hp1 & _).
  unfold ir_sample. rewrite Hir2, Hir1, Hir0.
  repeat split; try assumption.
  - rewrite tx_pending_app, Hp0, tx_pending_app, Hp1. exact Hp2.
  - rewrite beam_lines_app, Hl0, beam_lines_app, Hl2, app_nil_r by assumption.
    reflexivity.
Qed.

Lemma loop_beam hw s :
  let s1 := state_after handleStepper hw s in
  let s' := state_after loop hw s in
  let ev := events loop hw s in
  tx_pending "" ev = ""%string /\
  ir_reads s' = S (ir_reads s) /\
  ((lastStableIrState s' = lastStableIrState s /\ beam_lines ev = [] /\
    beamIsBroken s' = beamIsBroken s)
   \/
   (ir_at hw (ir_reads s) = LOW /\ lastStableIrState s = HIGH /\
    lastStableIrState s' = LOW /\ beam_lines ev = ["B"%string] /\
    beamIsBroken s' = true)
   \/
   (ir_at hw (ir_reads s) = HIGH /\ lastStableIrState s = LOW /\
    lastStableIrState s' = HIGH /\ beamIsBroken s' = false /\
    beam_lines ev =
      if beamIsBroken s
      then [("L:" ++ String_of_ulong
                       (usub (ir_event_time hw s1) (beamBrokenStartTime s)))%string]
      else [])).
Proof.
  cbv zeta.
  destruct (loop_sensor_view hw s)
    as (Hst1 & _ & Hb1 & Hbt1 & Hsm1 & Hst' & _ & Hb' & _ & Hir' & Hp & Hl).
  destruct (checkIrSensor_beam hw (state_after handleStepper hw s)) as (_ & Hcases).
  rewrite Hl, Hst', Hb'.
  rewrite Hsm1, Hst1, Hb1, Hbt1 in Hcases.
  auto.
Qed.

(** An iteration that leaves the stable level alone leaves the mark and
    the start time of the broken beam alone. *)
Lemma loop_keeps_start hw s :
  lastStableIrState (state_after loop hw s) = lastStableIrState s ->
  beamBrokenStartTime (state_after loop hw s) = beamBrokenStartTime s /\
  beamIsBroken (state_after loop hw s) = beamIsBroken s.
Proof.
  destruct (loop_sensor_view hw s)
    as (Hst1 & _ & Hb1 & Hbt1 & _ & Hst' & _ & Hb' & Hbt' & _).
  rewrite Hst', Hb', Hbt', <- Hst1, <- Hb1, <- Hbt1.
  destruct (checkIrSensor_cases hw (state_after handleStepper hw s))
    as (_ & _ & [H | [H | H]]).
  - destruct H as (_ & _ & _ & Hb & Ht & _). auto.
  - destruct H as (_ & _ & Hs & Hs' & _). congruence.
  - destruct H as (_ & _ & Hs & Hs' & _). congruence.
Qed.

(** C6 does not hold: the loop evaluates the motor before it polls the
    sensor.  In the iteration of the arrival in which the broken beam is
    accepted (TRIGGER mode, "B" sent, [motorActiveForTrigger] set), the
    enable line has already been driven inactive (HIGH) before "B"; polling
    the sensor first would have sent "B" and then driven the line active. *)
Lemma loop_evaluates_motor_before_sensor :
  currentMode arrival_state = TRIGGER /\
  events loop hw_arrival arrival_state
    = [DigitalWrite STEPPER_ENA_PIN HIGH; SerialPrintln "B"] /\
  motorActiveForTrigger (state_after loop hw_arrival arrival_state) = true /\
  events loop_sensor_first hw_arrival arrival_state
    = [SerialPrintln "B"; DigitalWrite STEPPER_ENA_PIN LOW].
Proof. vm_compute. repeat split. Qed.

(** C6, as the code has it.  An iteration runs [handleStepper] (mode
    evaluation and step pulse), then [checkIrSensor] (sensor poll and
    debounce), then [checkSerialCommands]; it reads the sensor once and
    polls the serial port once, so at most one command is consumed.  The
    level it drives on the enable line is the one [handleStepper] decides
    before the sensor is read, whatever the beam does.  An Interrupted
    transition accepted in an iteration in TRIGGER mode, when no byte is
    waiting at that iteration's poll, makes the next iteration drive the
    enable line active. *)
Theorem loop_order : forall hw s,
  let s1 := state_after handleStepper hw s in
  let s2 := state_after checkIrSensor hw s1 in
  let s3 := state_after checkSerialCommands hw s2 in
  state_after loop hw s = s3 /\
  events loop hw s
    = events handleStepper hw s ++ events checkIrSensor hw s1
      ++ events checkSerialCommands hw s2 /\
  ir_reads s3 = S (ir_reads s) /\
  serial_polls s3 = S (serial_polls s) /\
  (forall ir,
     pin_writes STEPPER_ENA_PIN (events loop (with_ir ir hw) s)
       = pin_writes STEPPER_ENA_PIN (events handleStepper hw s)) /\
  (currentMode s = TRIGGER ->
   lastStableIrState s = HIGH -> lastStableIrState s3 = LOW ->
   rx_at hw (serial_polls s) = None ->
   pin_writes STEPPER_ENA_PIN (events loop hw s3) = [LOW]).
Proof.
  intros hw s. cbv zeta.
  set (s1 := state_after handleStepper hw s).
  set (s2 := state_after checkIrSensor hw s1).
  set (s3 := state_after checkSerialCommands hw s2).
  destruct (handleStepper_frame hw s)
    as (Hm0 & _ & Hst0 & _ & _ & _ & _ & _ & Hir0 & Hsp0).
  fold s1 in Hm0, Hst0, Hir0, Hsp0.
  destruct (checkIrSensor_frame hw s1)
    as (Hm1 & _ & _ & _ & _ & _ & Hir1 & Hsp1 & _).
  fold s2 in Hm1, Hir1, Hsp1.
  destruct (checkSerialCommands_frame hw s2)
    as (_ & _ & _ & Hst2 & _ & _ & _ & _ & _ & _ & _ & Hir2 & Hsp2 & _).
  fold s3 in Hst2, Hir2, Hsp2.
  split; [unfold loop; now rewrite !state_after_seq | ].
  split; [unfold loop; now rewrite !events_seq | ].
  split; [now rewrite Hir2, Hir1, Hir0 | ].
  split; [now rewrite Hsp2, Hsp1, Hsp0 | ].
  split.
  - intros ir. rewrite loop_pin_writes. unfold events.
    now rewrite handleStepper_ignores_sensor.
  - intros Hmode Hhigh Hlow Hrx.
    rewrite loop_pin_writes.
    assert (Hs3 : s3 = polled s2).
    { unfold s3, state_after.
      rewrite checkSerialCommands_none; [reflexivity | ].
      now rewrite Hsp1, Hsp0. }
    destruct (checkIrSensor_cases hw s1) as (_ & _ & [H | [H | H]]); fold s2 in H.
    + destruct H as (_ & Hs & _). congruence.
    + destruct H as (_ & _ & _ & _ & _ & _ & _ & Hflags).
      destruct Hflags as (Ha & Hr); [congruence | ].
      apply handleStepper_trigger_active; rewrite Hs3.
      * destruct s2; cbn in *; congruence.
      * destruct s2; cbn in *; congruence.
      * destruct s2; cbn in *; congruence.
    + destruct H as (_ & _ & Hs & _). congruence.
Qed.

Lemma loop_order_witness :
  currentMode arrival_state = TRIGGER /\
  lastStableIrState arrival_state = HIGH /\
  pin_writes STEPPER_ENA_PIN
    (events loop hw_arrival (state_after loop hw_arrival arrival_state)) = [LOW].
Proof.
  split; [reflexivity | split; [reflexivity | ]].
  destruct (loop_order hw_arrival arrival_state) as (Hs3 & _ & _ & _ & _ & Hnext).
  rewrite Hs3. apply Hnext; reflexivity.
Defined.

(** ** Runs of the loop

    Any number of iterations on one board. *)

Section Runs.

Variable hw : Hardware.

Lemma loops_no_pulse : forall n s,
  (forall j, (micros_calls s <= j)%nat ->
     usub (micros_reading hw j) (lastStepTime s) < stepInterval) ->
  pin_writes STEPPER_STEP_PIN (events (loops n) hw s) = [].
Proof.
  induction n as [| n IH]; intros s Hwin; [reflexivity | ].
  cbn [loops]. rewrite events_seq, pin_writes_app.
  destruct (loop_pulse_cases hw s) as [(Hw & Ht & _ & Hm) | (_ & _ & _ & Hge & _)].
  - rewrite Hw, IH; [reflexivity | ].
    intros j Hj. rewrite Ht. apply Hwin. lia.
  - specialize (Hwin (micros_calls s) (Nat.le_refl _)). lia.
Qed.

Lemma loops_one_pulse : forall n s,
  (forall i j, (micros_calls s <= i)%nat -> (i <= j)%nat ->
     usub (micros_reading hw j) (micros_reading hw i) < stepInterval) ->
  (List.length (pin_writes STEPPER_STEP_PIN (events (loops n) hw s)) <= 1)%nat.
Proof.
  induction n as [| n IH]; intros s Hwin; [cbn; lia | ].
  cbn [loops]. rewrite events_seq, pin_writes_app, List.length_app.
  destruct (loop_pulse_cases hw s) as [(Hw & _ & _ & Hm) | (Hw & Ht & _ & _ & Hm)].
  - rewrite Hw. cbn [List.length]. apply IH.
    intros i j Hi Hij. apply Hwin; lia.
  - rewrite Hw, loops_no_pulse; [cbn; lia | ].
    intros j Hj. rewrite Ht. apply Hwin; lia.
Qed.

(** While the samples agree with the stable level nothing is reported and
    the stable level stays. *)
Lemma loops_agreeing : forall n s,
  (forall k, (ir_reads s <= k < ir_reads s + n)%nat ->
     ir_at hw k = lastStableIrState s) ->
  beam_lines (events (loops n) hw s) = [] /\
  changes (stable_history n hw s) = 0%nat.
Proof.
  induction n as [| n IH]; intros s Hall; [split; reflexivity | ].
  rewrite events_loops_S. cbn [stable_history]. rewrite changes_history.
  destruct (loop_beam hw s) as (Hp & Hir & Hcases).
  assert (Hnow : ir_at hw (ir_reads s) = lastStableIrState s)
    by (apply Hall; lia).
  destruct Hcases as [(Hs & Hl & _) | [(Hlow & Hs & _) | (Hhigh & Hs & _)]];
    [ | congruence | congruence].
  rewrite beam_lines_app, Hl, Hs, Level_eqb_refl by exact Hp.
  apply IH. intros k Hk. rewrite Hs. apply Hall. lia.
Qed.

(** While the samples keep one level, at most one transition is taken. *)
Lemma loops_constant : forall r n s,
  (forall k, (ir_reads s <= k < ir_reads s + n)%nat -> ir_at hw k = r) ->
  (List.length (beam_lines (events (loops n) hw s)) <= 1)%nat /\
  (changes (stable_history n hw s) <= 1)%nat.
Proof.
  induction n as [| n IH]; intros s Hall; [split; cbn; lia | ].
  rewrite events_loops_S. cbn [stable_history]. rewrite changes_history.
  destruct (loop_beam hw s) as (Hp & Hir & Hcases).
  assert (Hnow : ir_at hw (ir_reads s) = r) by (apply Hall; lia).
  rewrite beam_lines_app, List.length_app by exact Hp.
  assert (Hrest : forall k,
            (ir_reads (state_after loop hw s) <= k
             < ir_reads (state_after loop hw s) + n)%nat -> ir_at hw k = r)
    by (intros k Hk; apply Hall; lia).
  destruct Hcases as [(Hs & Hl & _) | [(Hlow & Hs & Hs' & Hl & _) | (Hhigh & Hs & Hs' & _ & Hl)]].
  - rewrite Hl, Hs, Level_eqb_refl. apply IH, Hrest.
  - destruct (loops_agreeing n (state_after loop hw s)) as (Hq & Hc).
    { intros k Hk. rewrite Hs', <- Hlow, Hnow. now apply Hrest. }
    rewrite Hq, Hc, Hl, Hs, Hs'. cbn. lia.
  - destruct (loops_agreeing n (state_after loop hw s)) as (Hq & Hc).
    { intros k Hk. rewrite Hs', <- Hhigh, Hnow. now apply Hrest. }
    rewrite Hq, Hc, Hl, Hs, Hs'. destruct (beamIsBroken s); cbn; lia.
Qed.

Lemma loops_flicker : forall s,
  lastFlickerIrState s = lastStableIrState s ->
  ir_at hw (ir_reads s) <> lastStableIrState s ->
  ir_at hw (S (ir_reads s)) = lastStableIrState s ->
  (let m := millis_calls (state_after handleStepper hw s) in
   usub (millis_reading hw (1 + m)) (millis_reading hw m) <= debounceDelay) ->
  changes (stable_history 2 hw s) = 0%nat /\
  beam_lines (events (loops 2) hw s) = [].
Proof.
  cbv zeta. intros s Hquiet Hflick Hback Hgap.
  (* the flickering sample *)
  destruct (loop_sensor_view hw s)
    as (Hst1 & Hfl1 & _ & _ & Hsm1 & Hst' & _ & _ & _ & Hir' & _ & Hl').
  destruct (checkIrSensor_not_accepted hw (state_after handleStepper hw s))
    as (Hkeep & Hev & _).
  { left. rewrite Hsm1, Hfl1, Hquiet. auto. }
  assert (Hs' : lastStableIrState (state_after loop hw s) = lastStableIrState s)
    by (rewrite Hst', Hkeep; exact Hst1).
  assert (Hl1 : beam_lines (events loop hw s) = [])
    by (rewrite Hl', Hev; reflexivity).
  (* the sample after it *)
  destruct (loops_agreeing 1 (state_after loop hw s)) as (Hl2 & Hc2).
  { intros k Hk. rewrite Hir' in Hk. replace k with (S (ir_reads s)) by lia.
    now rewrite Hs'. }
  destruct (loop_beam hw s) as (Hp & _).
  split.
  - change (stable_history 2 hw s)
      with (lastStableIrState s :: stable_history 1 hw (state_after loop hw s)).
    now rewrite changes_history, Hs', Level_eqb_refl, Hc2.
  - rewrite events_loops_S, beam_lines_app, Hl1, Hl2 by exact Hp. reflexivity.
Qed.

(** While the stable level does not change, the mark and the start time of
    the broken beam do not change. *)
Lemma loops_keep_start : forall n s,
  changes (stable_history n hw s) = 0%nat ->
  beamBrokenStartTime (state_after (loops n) hw s) = beamBrokenStartTime s /\
  beamIsBroken (state_after (loops n) hw s) = beamIsBroken s.
Proof.
  induction n as [| n IH]; intros s Hnone; [split; reflexivity | ].
  cbn [stable_history] in Hnone. rewrite changes_history in Hnone.
  rewrite state_after_loops_S.
  destruct (Level_eqb (lastStableIrState s)
              (lastStableIrState (state_after loop hw s))) eqn:Heq;
    [ | discriminate Hnone].
  apply Level_eqb_eq in Heq.
  destruct (loop_keeps_start hw s (eq_sym Heq)) as (Ht & Hb).
  destruct (IH (state_after loop hw s) Hnone) as (Ht' & Hb').
  split; congruence.
Qed.

(** In every state the sketch reaches the beam is marked broken exactly
    when the stable level is LOW; from such a state the lines of any
    number of iterations are in order. *)
Lemma loops_protocol : forall n s,
  beamIsBroken s = Level_eqb (lastStableIrState s) LOW ->
  beam_protocol (beamIsBroken s) (tx_lines (events (loops n) hw s))
    = Some (beamIsBroken (state_after (loops n) hw s)).
Proof.
  induction n as [| n IH]; intros s Hinv; [reflexivity | ].
  rewrite events_loops_S, state_after_loops_S.
  destruct (loop_beam hw s) as (Hp & _ & Hcases).
  rewrite tx_lines_app, beam_protocol_app by exact Hp.
  rewrite (beam_protocol_filter (tx_lines (events loop hw s))).
  fold (beam_lines (events loop hw s)).
  destruct Hcases as [(Hs & Hl & Hb) | [(_ & Hs & Hs' & Hl & Hb) | (_ & Hs & Hs' & Hb & Hl)]].
  - rewrite Hl. cbn [beam_protocol]. rewrite <- Hb. apply IH.
    now rewrite Hb, Hs.
  - rewrite Hl, Hinv, Hs. cbn. rewrite <- Hb. apply IH.
    now rewrite Hb, Hs'.
  - rewrite Hl, Hinv, Hs. cbn [Level_eqb]. rewrite beam_protocol_L.
    rewrite <- Hb. apply IH. now rewrite Hb, Hs'.
Qed.

End Runs.

(** ** The step pulse *)

(** C7. With [now] the reading of [micros] and the elapsed time taken by
    unsigned subtraction: when the motor should run and
    [now - lastStepTime >= stepInterval] (500 us), [handleStepper] flips
    [stepState], sets [lastStepTime] to [now] and writes the new phase to
    the step pin; when the motor should not run, or the interval has not
    elapsed, the phase, [lastStepTime] and the step pin are left alone.  The
    other two routines of the loop never touch them.  Hence over any number
    of loop iterations whose [micros] readings all lie less than
    [stepInterval] apart, the step pin is written at most once. *)
Theorem step_pulse_timing : forall hw s,
  let s' := state_after handleStepper hw s in
  let ev := events handleStepper hw s in
  let shouldRun :=
    match currentMode s with
    | CONTINUOUS => true
    | TRIGGER => motorActiveForTrigger s' || inRunOutPhase s'
    | IDLE => false
    end in
  let now := micros_reading hw (micros_calls s) in
  (shouldRun = true -> stepInterval <= usub now (lastStepTime s) ->
     stepState s' = negb (stepState s) /\ lastStepTime s' = now /\
     pin_writes STEPPER_STEP_PIN ev = [Level_of_bool (negb (stepState s))]) /\
  (shouldRun = false \/ usub now (lastStepTime s) < stepInterval ->
     stepState s' = stepState s /\ lastStepTime s' = lastStepTime s /\
     pin_writes STEPPER_STEP_PIN ev = []) /\
  (forall s1,
     let s2 := state_after (checkIrSensor ;; checkSerialCommands) hw s1 in
     stepState s2 = stepState s1 /\ lastStepTime s2 = lastStepTime s1 /\
     pin_writes STEPPER_STEP_PIN
       (events (checkIrSensor ;; checkSerialCommands) hw s1) = []) /\
  (forall n,
     (forall i j, (micros_calls s <= i)%nat -> (i <= j)%nat ->
        usub (micros_reading hw j) (micros_reading hw i) < stepInterval) ->
     (List.length (pin_writes STEPPER_STEP_PIN (events (loops n) hw s)) <= 1)%nat).
Proof.
  intros hw s. cbv zeta. split; [ | split; [ | split]].
  - destruct s. exec_sketch. all: finish_leaf.
  - destruct s. exec_sketch. all: intros [? | ?]; finish_leaf.
  - intros s1. rewrite state_after_seq, events_seq, pin_writes_app.
    set (s2 := state_after checkIrSensor hw s1).
    destruct (checkIrSensor_frame hw s1) as (_ & Ht1 & Hp1 & _ & _ & _ & _ & _ & Hw1).
    destruct (checkSerialCommands_frame hw s2)
      as (Ht2 & Hp2 & _ & _ & _ & _ & _ & _ & _ & _ & _ & _ & _ & Hw2).
    fold s2 in Ht1, Hp1.
    rewrite Hw1, Hw2, Ht2, Hp2, Ht1, Hp1. auto.
  - intros n Hwin. now apply loops_one_pulse.
Qed.

Lemma step_pulse_timing_witness :
  stepInterval
    <= usub (micros_reading (hw_clock 0 700) (micros_calls sys_stepping))
            (lastStepTime sys_stepping) /\
  stepState (state_after handleStepper (hw_clock 0 700) sys_stepping) = true /\
  lastStepTime (state_after handleStepper (hw_clock 0 700) sys_stepping) = 700 /\
  pin_writes STEPPER_STEP_PIN (events handleStepper (hw_clock 0 700) sys_stepping)
    = [HIGH].
Proof.
  assert (H : stepInterval
                <= usub (micros_reading (hw_clock 0 700) (micros_calls sys_stepping))
                        (lastStepTime sys_stepping))
    by (vm_compute; discriminate).
  destruct (step_pulse_timing (hw_clock 0 700) sys_stepping) as (Hflip & _).
  exact (conj H (Hflip eq_refl H)).
Defined.

(** ** The debounced edge detector *)

(** C1. (a) One poll: the sample becomes the last raw sample, and the time
    of the last change is reset to the clock exactly when the sample
    differs from the one before; the stable level changes only to the
    sample, only when the sample differs from the stable level, and only
    when the clock reads strictly more than [debounceDelay] (50 ms) past
    the time of the last change; a poll that leaves the stable level alone
    emits nothing; the other two routines of the loop leave the stable
    level, the last raw sample and the time of the last change alone.
    (b) A single-sample flicker: when the raw level agreed
    with the stable level, one sample departs from it and the next is back,
    and the clock moves no more than [debounceDelay] between the two
    readings taken for the departing sample, the two iterations leave the
    stable level unchanged and report no transition.  (c) Over [n]
    iterations whose samples all have one level, the stable level changes
    at most once and at most one transition line is sent. *)
Theorem debounce : forall hw s,
  (let s' := state_after checkIrSensor hw s in
   lastFlickerIrState s' = ir_sample hw s /\
   lastStateChangeTime s'
     = (if Level_eqb (ir_sample hw s) (lastFlickerIrState s)
        then lastStateChangeTime s
        else millis_reading hw (millis_calls s)) /\
   (lastStableIrState s' <> lastStableIrState s ->
      ir_sample hw s <> lastStableIrState s /\
      lastStableIrState s' = ir_sample hw s /\
      debounceDelay < usub (ir_check_time hw s) (lastStateChangeTime s')) /\
   (lastStableIrState s' = lastStableIrState s ->
      events checkIrSensor hw s = [])) /\
  (forall r, In r [handleStepper; checkSerialCommands] ->
     lastStableIrState (state_after r hw s) = lastStableIrState s /\
     lastFlickerIrState (state_after r hw s) = lastFlickerIrState s /\
     lastStateChangeTime (state_after r hw s) = lastStateChangeTime s) /\
  (lastFlickerIrState s = lastStableIrState s ->
   ir_at hw (ir_reads s) <> lastStableIrState s ->
   ir_at hw (S (ir_reads s)) = lastStableIrState s ->
   (let m := millis_calls (state_after handleStepper hw s) in
    usub (millis_reading hw (1 + m)) (millis_reading hw m) <= debounceDelay) ->
   changes (stable_history 2 hw s) = 0%nat /\
   beam_lines (events (loops 2) hw s) = []) /\
  (forall n r,
     (forall k, (ir_reads s <= k < ir_reads s + n)%nat -> ir_at hw k = r) ->
     (List.length (beam_lines (events (loops n) hw s)) <= 1)%nat /\
     (changes (stable_history n hw s) <= 1)%nat).
Proof.
  intros hw s. split; [ | split; [ | split]].
  - cbv zeta.
    destruct (checkIrSensor_cases hw s) as (Hfl & Hct & Hcases).
    split; [exact Hfl | ]. split.
    { rewrite Hct. unfold ir_change_time, ir_flipped.
      now destruct (Level_eqb (ir_sample hw s) (lastFlickerIrState s)). }
    rewrite Hct.
    destruct Hcases as [H | [H | H]].
    + destruct H as (_ & Hs & He & _). split; [congruence | auto].
    + destruct H as (Hd & Hl & Hs & Hs' & _).
      apply Z.ltb_lt in Hd. split; [ | congruence].
      intros _. rewrite Hl, Hs, Hs'. repeat split; [discriminate | exact Hd].
    + destruct H as (Hd & Hl & Hs & Hs' & _).
      apply Z.ltb_lt in Hd. split; [ | congruence].
      intros _. rewrite Hl, Hs, Hs'. repeat split; [discriminate | exact Hd].
  - intros r [<- | [<- | []]].
    + now destruct (handleStepper_frame hw s) as (_ & _ & Hs & Hf & Ht & _).
    + now destruct (checkSerialCommands_frame hw s)
        as (_ & _ & _ & Hs & Hf & Ht & _).
  - apply loops_flicker.
  - intros n r; apply loops_constant.
Qed.

Lemma debounce_witness :
  changes (stable_history 2 hw_flicker flicker_start) = 0%nat /\
  beam_lines (events (loops 2) hw_flicker flicker_start) = [].
Proof.
  destruct (debounce hw_flicker flicker_start) as (_ & _ & Hflicker & _).
  apply Hflicker; vm_compute; try reflexivity; discriminate.
Defined.

(** ** The length report *)

(** C2. When a poll of the sensor takes the stable level from LOW to HIGH
    (an accepted Cleared transition) while [beamIsBroken] is set, the poll
    emits one event, a [Serial.println] of "L:" followed by the decimal
    numeral of [now - beamBrokenStartTime], an unsigned subtraction with
    [now] the clock reading taken for the event; this is the one line sent,
    and the numeral reads back as that number.  [beamBrokenStartTime] is
    the clock reading taken when the stable level last went from HIGH to
    LOW (an accepted Interrupted transition, reported by "B"): it is set
    there, nothing else in the loop changes it, and over any number of
    iterations that leave the stable level alone it and [beamIsBroken]
    stay as they are. *)
Theorem beam_cleared_reports_duration : forall hw s,
  lastStableIrState s = LOW ->
  lastStableIrState (state_after checkIrSensor hw s) = HIGH ->
  beamIsBroken s = true ->
  let duration := usub (ir_event_time hw s) (beamBrokenStartTime s) in
  events checkIrSensor hw s
    = [SerialPrintln ("L:" ++ String_of_ulong duration)] /\
  tx_lines (events checkIrSensor hw s)
    = [("L:" ++ String_of_ulong duration)%string] /\
  parse_ulong (String_of_ulong duration) = Some duration /\
  (forall hw0 s0,
     let s0' := state_after checkIrSensor hw0 s0 in
     (lastStableIrState s0 = HIGH -> lastStableIrState s0' = LOW ->
        beamBrokenStartTime s0' = ir_event_time hw0 s0 /\
        beamIsBroken s0' = true /\
        events checkIrSensor hw0 s0 = [SerialPrintln "B"]) /\
     (beamBrokenStartTime s0' <> beamBrokenStartTime s0 ->
        lastStableIrState s0 = HIGH /\ lastStableIrState s0' = LOW) /\
     beamBrokenStartTime (state_after handleStepper hw0 s0)
       = beamBrokenStartTime s0 /\
     beamBrokenStartTime (state_after checkSerialCommands hw0 s0)
       = beamBrokenStartTime s0 /\
     (forall n,
        changes (stable_history n hw0 s0) = 0%nat ->
        beamBrokenStartTime (state_after (loops n) hw0 s0)
          = beamBrokenStartTime s0 /\
        beamIsBroken (state_after (loops n) hw0 s0) = beamIsBroken s0)).
Proof.
  intros hw s Hlow Hhigh Hbroken. cbv zeta.
  assert (Hev : events checkIrSensor hw s
                = [SerialPrintln
                     ("L:" ++ String_of_ulong
                                (usub (ir_event_time hw s) (beamBrokenStartTime s)))]).
  { destruct (checkIrSensor_cases hw s) as (_ & _ & [H | [H | H]]).
    - destruct H as (_ & Hs & _). congruence.
    - destruct H as (_ & _ & Hs & _). congruence.
    - destruct H as (_ & _ & _ & _ & He & _). now rewrite Hbroken in He. }
  split; [exact Hev | ]. split; [now rewrite Hev | ].
  split; [apply String_of_ulong_parse, usub_range | ].
  intros hw0 s0.
  destruct (checkIrSensor_cases hw0 s0) as (_ & _ & Hcases).
  split; [ | split; [ | split; [ | split]]].
  - intros H0 H0'. destruct Hcases as [H | [H | H]].
    + destruct H as (_ & Hs & _). congruence.
    + destruct H as (_ & _ & _ & _ & He & Hb & Ht & _). auto.
    + destruct H as (_ & _ & Hs & _). congruence.
  - intros Hne. destruct Hcases as [H | [H | H]].
    + destruct H as (_ & _ & _ & _ & Ht & _). congruence.
    + destruct H as (_ & _ & Hs & Hs' & _). auto.
    + destruct H as (_ & _ & _ & _ & _ & _ & Ht & _). congruence.
  - now destruct (handleStepper_frame hw0 s0) as (_ & _ & _ & _ & _ & Ht & _).
  - now destruct (checkSerialCommands_frame hw0 s0)
      as (_ & _ & _ & _ & _ & _ & Ht & _).
  - intros n. apply loops_keep_start.
Qed.

Lemma beam_cleared_reports_duration_witness :
  lastStableIrState session_before_clear = LOW /\
  beamIsBroken session_before_clear = true /\
  events checkIrSensor hw_session session_before_clear = [SerialPrintln "L:120"].
Proof.
  split; [reflexivity | split; [reflexivity | ]].
  apply (beam_cleared_reports_duration hw_session session_before_clear);
    reflexivity.
Defined.

(** ** "L:" follows "B" *)

(** C10. From power-up, through [setup] and any number of iterations, on
    any board: the lines sent are in order, every "L:" line coming after a
    "B" line of its own with no other "B" or "L:" line in between, and the
    beam is marked broken at the end exactly when the last of them is a
    "B".  In any state: a poll of the sensor made while [beamIsBroken] is
    false sends no "L:" line, also when it accepts a Cleared transition;
    [beamIsBroken] becomes true only in a poll that takes the stable level
    from HIGH to LOW and sends "B"; the other routines neither change
    [beamIsBroken] nor send a "B" or "L:" line. *)
Theorem length_report_follows_break : forall hw n a1 a2 a3,
  beam_protocol false (tx_lines (events (sketch n) hw (boot a1 a2 a3)))
    = Some (beamIsBroken (state_after (sketch n) hw (boot a1 a2 a3))) /\
  (forall s,
     let s' := state_after checkIrSensor hw s in
     let ev := events checkIrSensor hw s in
     (beamIsBroken s = false -> filter is_L_line (tx_lines ev) = []) /\
     (beamIsBroken s = false -> lastStableIrState s = LOW ->
        lastStableIrState s' = HIGH -> ev = []) /\
     (beamIsBroken s = false -> beamIsBroken s' = true ->
        lastStableIrState s = HIGH /\ lastStableIrState s' = LOW /\
        ev = [SerialPrintln "B"]) /\
     beamIsBroken (state_after handleStepper hw s) = beamIsBroken s /\
     beam_lines (events handleStepper hw s) = [] /\
     beamIsBroken (state_after checkSerialCommands hw s) = beamIsBroken s /\
     beam_lines (events checkSerialCommands hw s) = []).
Proof.
  intros hw n a1 a2 a3. split.
  - unfold sketch. rewrite events_seq, state_after_seq.
    destruct (setup_lines hw (boot a1 a2 a3)) as (Hp & Hl & Hb & Hs).
    set (s0 := state_after setup hw (boot a1 a2 a3)) in *.
    rewrite tx_lines_app, beam_protocol_app by exact Hp.
    rewrite (beam_protocol_filter (tx_lines (events setup hw (boot a1 a2 a3)))).
    fold (beam_lines (events setup hw (boot a1 a2 a3))).
    rewrite Hl. cbn [beam_protocol].
    change false with (beamIsBroken (boot a1 a2 a3)). rewrite <- Hb.
    apply loops_protocol. now rewrite Hb, Hs.
  - intros s. cbv zeta.
    destruct (checkIrSensor_cases hw s) as (_ & _ & Hcases).
    split; [ | split; [ | split; [ | split; [ | split; [ | split]]]]].
    + intros Hb. destruct Hcases as [H | [H | H]].
      * destruct H as (_ & _ & -> & _). reflexivity.
      * destruct H as (_ & _ & _ & _ & -> & _). reflexivity.
      * destruct H as (_ & _ & _ & _ & -> & _). now rewrite Hb.
    + intros Hb Hs Hs'. destruct Hcases as [H | [H | H]].
      * destruct H as (_ & _ & -> & _). reflexivity.
      * destruct H as (_ & _ & Hs0 & _). congruence.
      * destruct H as (_ & _ & _ & _ & -> & _). now rewrite Hb.
    + intros Hb Hb'. destruct Hcases as [H | [H | H]].
      * destruct H as (_ & _ & _ & Hsame & _). congruence.
      * destruct H as (_ & _ & Hs0 & Hs1 & He & _). auto.
      * destruct H as (_ & _ & _ & _ & _ & Hfalse & _). congruence.
    + now destruct (handleStepper_frame hw s) as (_ & _ & _ & _ & _ & _ & Hb & _).
    + apply handleStepper_lines.
    + now destruct (checkSerialCommands_frame hw s)
        as (_ & _ & _ & _ & _ & _ & _ & Hb & _).
    + apply checkSerialCommands_lines.
Qed.

Lemma length_report_follows_break_witness :
  beam_lines (events (sketch 5) hw_session (boot 90 90 90)) = ["B"; "L:120"]%string /\
  beam_protocol false (tx_lines (events (sketch 5) hw_session (boot 90 90 90)))
    = Some false.
Proof.
  split; [reflexivity | ].
  exact (proj1 (length_report_follows_break hw_session 5 90 90 90)).
Defined.

(** * More of the sketch

    Properties of the routines beyond the claims: the clock readings they
    consume, what the modes do to the motor over a run, the trigger flags,
    the status line, the pins and the servos. *)

(** ** Single calls *)

Lemma handleStepper_clock hw s :
  let s' := state_after handleStepper hw s in
  (millis_calls s < millis_calls s')%nat /\
  lastStatusTime s'
    = (if status_due hw s then millis_reading hw (1 + millis_calls s)
       else lastStatusTime s).
Proof.
  destruct s. cbv zeta. exec_sketch.
  all: split; try reflexivity; lia.
Qed.

Lemma checkIrSensor_clock hw s :
  (millis_calls s < millis_calls (state_after checkIrSensor hw s))%nat.
Proof. destruct s. exec_sketch. all: lia. Qed.

(** Unless a run-out ends in it, an evaluation of [handleStepper] leaves
    the trigger flags alone and drives the enable line as the mode and the
    flags at entry say. *)
Lemma handleStepper_steady hw s :
  (currentMode s = TRIGGER -> inRunOutPhase s = true ->
   usub (run_out_check_time hw s) (runOutStartTime s) < runOutDuration) ->
  let s' := state_after handleStepper hw s in
  motorActiveForTrigger s' = motorActiveForTrigger s /\
  inRunOutPhase s' = inRunOutPhase s /\
  pin_writes STEPPER_ENA_PIN (events handleStepper hw s)
    = [if motor_wanted s then LOW else HIGH].
Proof.
  destruct s. unfold motor_wanted. cbv zeta. exec_sketch.
  all: intros Hwin; repeat split; try reflexivity.
  all: exfalso; specialize (Hwin eq_refl eq_refl); lia.
Qed.

Lemma handleStepper_idle hw s :
  currentMode s = IDLE ->
  let s' := state_after handleStepper hw s in
  pin_writes STEPPER_STEP_PIN (events handleStepper hw s) = [] /\
  stepState s' = stepState s /\ lastStepTime s' = lastStepTime s.
Proof. destruct s. cbv zeta. exec_sketch. all: finish_leaf. Qed.

Lemma is_mode_command_false c :
  is_mode_command c = false ->
  c <> "C"%char /\ c <> "T"%char /\ c <> "X"%char.
Proof.
  unfold is_mode_command. intros H.
  apply orb_false_elim in H. destruct H as (H & HX).
  apply orb_false_elim in H. destruct H as (HC & HT).
  repeat split; now apply Ascii.eqb_neq.
Qed.

(** A poll that finds no mode command leaves the mode and the trigger
    flags alone and sends nothing. *)
Lemma checkSerialCommands_no_mode hw s :
  (forall c, rx_at hw (serial_polls s) = Some c -> is_mode_command c = false) ->
  let s' := state_after checkSerialCommands hw s in
  currentMode s' = currentMode s /\
  motorActiveForTrigger s' = motorActiveForTrigger s /\
  inRunOutPhase s' = inRunOutPhase s /\
  tx_lines (events checkSerialCommands hw s) = [].
Proof.
  intros Hno. cbv zeta.
  destruct (rx_at hw (serial_polls s)) as [c | ] eqn:Hrx.
  - destruct (is_mode_command_false c (Hno c eq_refl)) as (HC & HT & HX).
    revert Hrx HC HT HX. clear Hno. destruct s. run_sketch. intros ->.
    repeat match goal with
    | |- context [Ascii.eqb c ?k] =>
        destruct (Ascii.eqb_spec c k) as [-> | _]
    end; intros; try congruence; repeat split.
  - unfold state_after, events. rewrite (checkSerialCommands_none hw s Hrx).
    destruct s; repeat split.
Qed.

(** ** One iteration, continued *)

Lemma loop_counters hw s :
  let s' := state_after loop hw s in
  serial_polls s' = S (serial_polls s) /\
  ir_reads s' = S (ir_reads s) /\
  (millis_calls s < millis_calls s')%nat.
Proof.
  cbv zeta. unfold loop. rewrite !state_after_seq.
  set (s1 := state_after handleStepper hw s).
  set (s2 := state_after checkIrSensor hw s1).
  destruct (handleStepper_frame hw s) as (_ & _ & _ & _ & _ & _ & _ & _ & Hir0 & Hsp0).
  destruct (handleStepper_clock hw s) as (Hms0 & _).
  destruct (checkIrSensor_frame hw s1) as (_ & _ & _ & _ & _ & _ & Hir1 & Hsp1 & _).
  pose proof (checkIrSensor_clock hw s1) as Hms1.
  destruct (checkSerialCommands_frame hw s2)
    as (_ & _ & _ & _ & _ & _ & _ & _ & _ & Hms2 & _ & Hir2 & Hsp2 & _).
  fold s1 in Hir0, Hsp0, Hms0. fold s2 in Hir1, Hsp1, Hms1.
  rewrite Hsp2, Hsp1, Hsp0, Hir2, Hir1, Hir0, Hms2. repeat split. lia.
Qed.

Lemma loop_mode hw s :
  (forall c, rx_at hw (serial_polls s) = Some c -> is_mode_command c = false) ->
  currentMode (state_after loop hw s) = currentMode s.
Proof.
  intros Hno. unfold loop. rewrite !state_after_seq.
  set (s1 := state_after handleStepper hw s).
  set (s2 := state_after checkIrSensor hw s1).
  destruct (handleStepper_frame hw s) as (Hm0 & _ & _ & _ & _ & _ & _ & _ & _ & Hsp0).
  destruct (checkIrSensor_frame hw s1) as (Hm1 & _ & _ & _ & _ & _ & _ & Hsp1 & _).
  fold s1 in Hm0, Hsp0. fold s2 in Hm1, Hsp1.
  destruct (checkSerialCommands_no_mode hw s2) as (Hm2 & _).
  { now rewrite Hsp1, Hsp0. }
  now rewrite Hm2, Hm1, Hm0.
Qed.

(** An iteration in which no transition is accepted, no mode command is
    found and no run-out ends keeps the mode and the trigger flags and
    drives the enable line as they say. *)
Lemma loop_quiet_step hw s :
  (forall c, rx_at hw (serial_polls s) = Some c -> is_mode_command c = false) ->
  lastStableIrState (state_after loop hw s) = lastStableIrState s ->
  (currentMode s = TRIGGER -> inRunOutPhase s = true ->
   usub (run_out_check_time hw s) (runOutStartTime s) < runOutDuration) ->
  let s' := state_after loop hw s in
  motorActiveForTrigger s' = motorActiveForTrigger s /\
  inRunOutPhase s' = inRunOutPhase s /\
  runOutStartTime s' = runOutStartTime s /\
  pin_writes STEPPER_ENA_PIN (events loop hw s)
    = [if motor_wanted s then LOW else HIGH].
Proof.
  intros Hno Hstable Hwin. cbv zeta.
  rewrite loop_pin_writes.
  destruct (handleStepper_steady hw s Hwin) as (Ha0 & Hr0 & He).
  rewrite He. revert Hstable. unfold loop. rewrite !state_after_seq.
  set (s1 := state_after handleStepper hw s) in *.
  set (s2 := state_after checkIrSensor hw s1).
  destruct (handleStepper_frame hw s) as (_ & Ht0 & Hst0 & _ & _ & _ & _ & _ & _ & Hsp0).
  destruct (checkIrSensor_frame hw s1) as (_ & _ & _ & _ & _ & _ & _ & Hsp1 & _).
  fold s1 in Ht0, Hst0, Hsp0. fold s2 in Hsp1.
  destruct (checkSerialCommands_frame hw s2) as (_ & _ & Ht2 & Hst2 & _).
  destruct (checkSerialCommands_no_mode hw s2) as (_ & Ha2 & Hr2 & _).
  { now rewrite Hsp1, Hsp0. }
  rewrite Hst2, Ha2, Hr2, Ht2. intros Hstable.
  destruct (checkIrSensor_cases hw s1) as (_ & _ & [H | [H | H]]); fold s2 in H.
  - destruct H as (_ & _ & _ & _ & _ & Ha1 & Hr1 & Ht1).
    rewrite Ha1, Hr1, Ht1, Ha0, Hr0, Ht0. auto.
  - destruct H as (_ & _ & Hs & Hs' & _). congruence.
  - destruct H as (_ & _ & Hs & Hs' & _). congruence.
Qed.

(** ** Runs, continued *)

Section MoreRuns.

Variable hw : Hardware.

Lemma no_mode_command_S n s :
  no_mode_command hw s (S n) ->
  (forall c, rx_at hw (serial_polls s) = Some c -> is_mode_command c = false) /\
  no_mode_command hw (state_after loop hw s) n.
Proof.
  intros Hno. split.
  - intros c Hc. apply (Hno (serial_polls s) c); [lia | exact Hc].
  - intros k c Hk Hc. destruct (loop_counters hw s) as (Hsp & _).
    rewrite Hsp in Hk. apply (Hno k c); [lia | exact Hc].
Qed.

Lemma loops_modes_hold : forall n s,
  no_mode_command hw s n ->
  currentMode (state_after (loops n) hw s) = currentMode s /\
  (currentMode s <> TRIGGER ->
   pin_writes STEPPER_ENA_PIN (events (loops n) hw s)
     = repeat (if motor_wanted s then LOW else HIGH) n) /\
  (currentMode s = IDLE ->
   pin_writes STEPPER_STEP_PIN (events (loops n) hw s) = [] /\
   stepState (state_after (loops n) hw s) = stepState s).
Proof.
  induction n as [| n IH]; intros s Hno; [repeat split | ].
  destruct (no_mode_command_S n s Hno) as (Hnow & Hrest).
  pose proof (loop_mode hw s Hnow) as Hmode.
  destruct (IH (state_after loop hw s) Hrest) as (IHm & IHe & IHs).
  rewrite state_after_loops_S, events_loops_S, !pin_writes_app.
  split; [congruence | split].
  - intros Hnt. rewrite IHe by congruence.
    rewrite loop_pin_writes.
    destruct (handleStepper_steady hw s) as (_ & _ & He); [congruence | ].
    rewrite He. unfold motor_wanted. rewrite Hmode. cbn [repeat app].
    destruct (currentMode s); congruence.
  - intros Hidle. destruct IHs as (IHw & IHst); [congruence | ].
    rewrite IHw, IHst, loop_pin_writes.
    destruct (handleStepper_idle hw s Hidle) as (Hw & Hst & _).
    rewrite Hw. split; [reflexivity | ].
    destruct (loop_pulse_cases hw s) as [(_ & _ & Hp & _) | (Hflip & _)];
      [exact Hp | ].
    rewrite loop_pin_writes, Hw in Hflip. discriminate Hflip.
Qed.

Lemma loops_trigger_holds : forall n s,
  currentMode s = TRIGGER ->
  no_mode_command hw s n ->
  changes (stable_history n hw s) = 0%nat ->
  (inRunOutPhase s = true ->
   forall k, (millis_calls s <= k)%nat ->
     usub (millis_reading hw k) (runOutStartTime s) < runOutDuration) ->
  pin_writes STEPPER_ENA_PIN (events (loops n) hw s)
    = repeat (if motorActiveForTrigger s || inRunOutPhase s then LOW else HIGH) n /\
  motorActiveForTrigger (state_after (loops n) hw s) = motorActiveForTrigger s /\
  inRunOutPhase (state_after (loops n) hw s) = inRunOutPhase s.
Proof.
  induction n as [| n IH]; intros s Hmode Hno Hnone Hwin; [repeat split | ].
  destruct (no_mode_command_S n s Hno) as (Hnow & Hrest).
  cbn [stable_history] in Hnone. rewrite changes_history in Hnone.
  destruct (Level_eqb (lastStableIrState s)
              (lastStableIrState (state_after loop hw s))) eqn:Heq;
    [ | discriminate Hnone].
  apply Level_eqb_eq in Heq.
  destruct (loop_counters hw s) as (_ & _ & Hms).
  destruct (loop_quiet_step hw s Hnow (eq_sym Heq)) as (Ha & Hr & Ht & He).
  { intros _ Hrun. apply Hwin; [exact Hrun | ].
    unfold run_out_check_time. destruct (status_due hw s); lia. }
  destruct (IH (state_after loop hw s)) as (IHe & IHa & IHr).
  - rewrite (loop_mode hw s Hnow). exact Hmode.
  - exact Hrest.
  - exact Hnone.
  - rewrite Hr, Ht. intros Hrun k Hk. apply Hwin; [exact Hrun | lia].
  - rewrite state_after_loops_S, events_loops_S, pin_writes_app, He, IHe, IHa, IHr.
    rewrite Ha, Hr. unfold motor_wanted. rewrite Hmode. repeat split.
Qed.

End MoreRuns.

(** ** Invariants *)

Ltac finish_consistent :=
  unfold consistent; cbn;
  intros (Hrun & Hidle & Hbeam & Hservo);
  pose proof (Hservo servo1) as Hs1;
  pose proof (Hservo servo2) as Hs2;
  pose proof (Hservo servo3) as Hs3; cbn in Hs1, Hs2, Hs3;
  repeat split; intros;
  try match goal with g : Servo |- _ => destruct g end;
  try reflexivity; try discriminate; try congruence;
  try (apply Hidle; congruence); try (apply Hrun; congruence); auto.

Lemma handleStepper_consistent hw s :
  consistent s -> consistent (state_after handleStepper hw s).
Proof.
  destruct s. exec_sketch. all: finish_consistent.
Qed.

Lemma checkIrSensor_consistent hw s :
  consistent s -> consistent (state_after checkIrSensor hw s).
Proof.
  destruct s. exec_sketch. all: finish_consistent.
Qed.

Lemma checkSerialCommands_consistent hw s :
  consistent s -> consistent (state_after checkSerialCommands hw s).
Proof.
  destruct s. exec_sketch. all: finish_consistent.
Qed.

Lemma loop_consistent hw s :
  consistent s -> consistent (state_after loop hw s).
Proof.
  intros H. unfold loop. rewrite !state_after_seq.
  now apply checkSerialCommands_consistent, checkIrSensor_consistent,
    handleStepper_consistent.
Qed.

Lemma loops_consistent hw : forall n s,
  consistent s -> consistent (state_after (loops n) hw s).
Proof.
  induction n as [| n IH]; intros s H; [exact H | ].
  rewrite state_after_loops_S. now apply IH, loop_consistent.
Qed.

Lemma sketch_consistent hw n a1 a2 a3 :
  consistent (state_after (sketch n) hw (boot a1 a2 a3)).
Proof.
  unfold sketch. rewrite state_after_seq. apply loops_consistent.
  unfold consistent. run_sketch. repeat split; intros; try discriminate.
  now destruct g.
Qed.

(** ** The modes over a run *)

(** X1. The mode changes only on 'C', 'T' and 'X': over any number of
    iterations whose polls find none of the three, whatever else arrives
    and whatever the beam does, the mode stays as it is.  In IDLE every
    iteration drives the enable line inactive (HIGH) and the step line is
    never written; in CONTINUOUS every iteration drives the enable line
    active (LOW). *)
Theorem idle_and_continuous_hold : forall hw n s,
  no_mode_command hw s n ->
  currentMode (state_after (loops n) hw s) = currentMode s /\
  (currentMode s = IDLE ->
   pin_writes STEPPER_ENA_PIN (events (loops n) hw s) = repeat HIGH n /\
   pin_writes STEPPER_STEP_PIN (events (loops n) hw s) = [] /\
   stepState (state_after (loops n) hw s) = stepState s) /\
  (currentMode s = CONTINUOUS ->
   pin_writes STEPPER_ENA_PIN (events (loops n) hw s) = repeat LOW n).
Proof.
  intros hw n s Hno.
  destruct (loops_modes_hold hw n s Hno) as (Hm & He & Hs).
  split; [exact Hm | split].
  - intros Hidle. destruct (Hs Hidle) as (Hw & Hst).
    rewrite He by congruence. unfold motor_wanted. rewrite Hidle. auto.
  - intros Hcont. rewrite He by congruence.
    unfold motor_wanted. now rewrite Hcont.
Qed.

Lemma idle_and_continuous_hold_witness :
  no_mode_command (hw_quiet (Some "2"%char)) (boot 0 0 0) 3 /\
  pin_writes STEPPER_ENA_PIN (events (loops 3) (hw_quiet (Some "2"%char)) (boot 0 0 0))
    = [HIGH; HIGH; HIGH].
Proof.
  assert (H : no_mode_command (hw_quiet (Some "2"%char)) (boot 0 0 0) 3).
  { intros k c _ Hc. cbn in Hc. injection Hc as <-. reflexivity. }
  split; [exact H | ].
  destruct (idle_and_continuous_hold (hw_quiet (Some "2"%char)) 3 (boot 0 0 0) H)
    as (_ & Hidle & _).
  exact (proj1 (Hidle eq_refl)).
Defined.

(** X2. In TRIGGER mode, over any number of iterations in which no mode
    command is found, the stable level of the sensor does not change and,
    if a run-out is in progress, the clock keeps reading less than
    [runOutDuration] past [runOutStartTime]: the two trigger flags stay as
    they are, and every iteration drives the enable line active when one
    of them is set and inactive when neither is.  So the motor runs for as
    long as the beam stays broken, keeps running through the run-out
    window, and stays off while nothing has arrived. *)
Theorem trigger_motor_holds : forall hw n s,
  currentMode s = TRIGGER ->
  no_mode_command hw s n ->
  changes (stable_history n hw s) = 0%nat ->
  (inRunOutPhase s = true ->
   forall k, (millis_calls s <= k)%nat ->
     usub (millis_reading hw k) (runOutStartTime s) < runOutDuration) ->
  pin_writes STEPPER_ENA_PIN (events (loops n) hw s)
    = repeat (if motorActiveForTrigger s || inRunOutPhase s then LOW else HIGH) n /\
  motorActiveForTrigger (state_after (loops n) hw s) = motorActiveForTrigger s /\
  inRunOutPhase (state_after (loops n) hw s) = inRunOutPhase s /\
  currentMode (state_after (loops n) hw s) = TRIGGER.
Proof.
  intros hw n s Hmode Hno Hnone Hwin.
  destruct (loops_trigger_holds hw n s Hmode Hno Hnone Hwin) as (He & Ha & Hr).
  destruct (loops_modes_hold hw n s Hno) as (Hm & _).
  repeat split; congruence.
Qed.

Lemma trigger_motor_holds_witness :
  pin_writes STEPPER_ENA_PIN (events (loops 3) (hw_clock 200 0) sys_run_out)
    = [LOW; LOW; LOW] /\
  inRunOutPhase (state_after (loops 3) (hw_clock 200 0) sys_run_out) = true.
Proof.
  destruct (trigger_motor_holds (hw_clock 200 0) 3 sys_run_out) as (He & _ & Hr & _).
  - reflexivity.
  - intros k c _ Hc. discriminate Hc.
  - reflexivity.
  - intros _ k _. vm_compute. reflexivity.
  - split; [exact He | exact Hr].
Defined.

(** X3. What an accepted transition does to the trigger flags.  When a
    poll takes the stable level from HIGH to LOW: in TRIGGER mode
    [motorActiveForTrigger] is set and a run-out in progress is cancelled,
    in the other modes both flags are left alone.  When a poll takes it
    from LOW to HIGH: in TRIGGER mode with [motorActiveForTrigger] set the
    run-out begins and [runOutStartTime] is the last clock reading of the
    poll, otherwise the run-out flag and its start time are left alone;
    [motorActiveForTrigger] is left alone in either case.  A poll that
    leaves the stable level alone leaves all three alone. *)
Theorem trigger_edges : forall hw s,
  let s' := state_after checkIrSensor hw s in
  (lastStableIrState s = HIGH -> lastStableIrState s' = LOW ->
     runOutStartTime s' = runOutStartTime s /\
     if Mode_eqb (currentMode s) TRIGGER
     then motorActiveForTrigger s' = true /\ inRunOutPhase s' = false
     else motorActiveForTrigger s' = motorActiveForTrigger s /\
          inRunOutPhase s' = inRunOutPhase s) /\
  (lastStableIrState s = LOW -> lastStableIrState s' = HIGH ->
     motorActiveForTrigger s' = motorActiveForTrigger s /\
     if Mode_eqb (currentMode s) TRIGGER && motorActiveForTrigger s
     then inRunOutPhase s' = true /\
          runOutStartTime s' = millis_reading hw (Nat.pred (millis_calls s'))
     else inRunOutPhase s' = inRunOutPhase s /\
          runOutStartTime s' = runOutStartTime s) /\
  (lastStableIrState s' = lastStableIrState s ->
     motorActiveForTrigger s' = motorActiveForTrigger s /\
     inRunOutPhase s' = inRunOutPhase s /\
     runOutStartTime s' = runOutStartTime s).
Proof.
  intros hw s. destruct s. cbv zeta. exec_sketch.
  all: cbn [Nat.pred]; repeat split; intros; try discriminate; try reflexivity;
    congruence.
Qed.

Lemma trigger_edges_witness :
  lastStableIrState session_before_clear = LOW /\
  inRunOutPhase session_before_clear = false /\
  inRunOutPhase (state_after checkIrSensor hw_session session_before_clear) = true /\
  runOutStartTime (state_after checkIrSensor hw_session session_before_clear) = 280.
Proof.
  split; [reflexivity | split; [reflexivity | ]].
  destruct (trigger_edges hw_session session_before_clear) as (_ & Hclear & _).
  destruct (Hclear eq_refl eq_refl) as (_ & Hrun).
  exact Hrun.
Defined.

(** ** What holds of every state the sketch reaches *)

(** X4. After [setup] and any number of iterations, on any board and with
    any bytes from the host: a run-out is in progress only while
    [motorActiveForTrigger] is set, and in IDLE mode neither flag is
    set. *)
Theorem trigger_flags_consistent : forall hw n a1 a2 a3,
  let s := state_after (sketch n) hw (boot a1 a2 a3) in
  (inRunOutPhase s = true -> motorActiveForTrigger s = true) /\
  (currentMode s = IDLE ->
     motorActiveForTrigger s = false /\ inRunOutPhase s = false).
Proof.
  intros hw n a1 a2 a3. cbv zeta.
  destruct (sketch_consistent hw n a1 a2 a3) as (Hrun & Hidle & _).
  split; assumption.
Qed.

Lemma trigger_flags_consistent_witness :
  inRunOutPhase (session_state 5) = true /\
  motorActiveForTrigger (session_state 5) = true.
Proof.
  split; [reflexivity | ].
  now apply (trigger_flags_consistent hw_session 5 90 90 90).
Defined.

Lemma loops_report_every_change hw : forall n s,
  beamIsBroken s = Level_eqb (lastStableIrState s) LOW ->
  List.length (beam_lines (events (loops n) hw s))
    = changes (stable_history n hw s).
Proof.
  induction n as [| n IH]; intros s Hinv; [reflexivity | ].
  rewrite events_loops_S. cbn [stable_history]. rewrite changes_history.
  destruct (loop_beam hw s) as (Hp & _ & Hcases).
  rewrite beam_lines_app, List.length_app by exact Hp.
  destruct Hcases as [(Hs & Hl & Hb) | [(_ & Hs & Hs' & Hl & Hb) | (_ & Hs & Hs' & Hb & Hl)]].
  - rewrite Hl, Hs, Level_eqb_refl. apply IH. now rewrite Hb, Hs.
  - rewrite Hl, Hs, Hs'. cbn. f_equal. apply IH. now rewrite Hb, Hs'.
  - rewrite Hl, Hinv, Hs, Hs'. cbn. f_equal. apply IH. now rewrite Hb, Hs'.
Qed.

(** X5. In every state the sketch reaches, the beam is marked broken
    exactly when the stable level is LOW, so the guard on the length report
    never suppresses one: from such a state, over any number of further
    iterations, the number of "B" and "L:" lines sent is the number of
    times the stable level changed. *)
Theorem beam_transitions_all_reported : forall hw n m a1 a2 a3,
  let s := state_after (sketch n) hw (boot a1 a2 a3) in
  beamIsBroken s = Level_eqb (lastStableIrState s) LOW /\
  List.length (beam_lines (events (loops m) hw s))
    = changes (stable_history m hw s).
Proof.
  intros hw n m a1 a2 a3. cbv zeta.
  destruct (sketch_consistent hw n a1 a2 a3) as (_ & _ & Hbeam & _).
  split; [exact Hbeam | now apply loops_report_every_change].
Qed.

(** ** The gates *)

Ltac finish_gate_events :=
  repeat (apply Forall_cons; [cbn; auto | ]); apply Forall_nil.

Lemma handleStepper_gate_events hw s :
  Forall gate_event_ok (events handleStepper hw s).
Proof. destruct s. exec_sketch. all: finish_gate_events. Qed.

Lemma checkIrSensor_gate_events hw s :
  Forall gate_event_ok (events checkIrSensor hw s).
Proof. destruct s. exec_sketch. all: finish_gate_events. Qed.

Lemma checkSerialCommands_gate_events hw s :
  Forall gate_event_ok (events checkSerialCommands hw s).
Proof. destruct s. exec_sketch. all: finish_gate_events. Qed.

Lemma loops_gate_events hw : forall n s,
  Forall gate_event_ok (events (loops n) hw s).
Proof.
  induction n as [| n IH]; intros s; [apply Forall_nil | ].
  rewrite events_loops_S. apply Forall_app. split; [ | apply IH].
  unfold loop. rewrite !events_seq. rewrite !Forall_app.
  repeat split.
  - apply handleStepper_gate_events.
  - apply checkIrSensor_gate_events.
  - apply checkSerialCommands_gate_events.
Qed.

(** X6. After [setup] and any number of iterations every gate is at its
    home angle 0, whatever commands arrived; and all along, a servo is only
    ever written 0 or the angle of its own gate (45 for gate 1, 90 for
    gate 2, 135 for gate 3), and every [delay] is of 1000 ms. *)
Theorem gates_rest_at_home : forall hw n a1 a2 a3,
  (forall g, servo_angle g (state_after (sketch n) hw (boot a1 a2 a3)) = 0) /\
  Forall gate_event_ok (events (sketch n) hw (boot a1 a2 a3)).
Proof.
  intros hw n a1 a2 a3. split.
  - now destruct (sketch_consistent hw n a1 a2 a3) as (_ & _ & _ & Hservo).
  - unfold sketch. rewrite events_seq. apply Forall_app. split.
    + run_sketch. finish_gate_events.
    + apply loops_gate_events.
Qed.

(** ** The pins *)

Lemma handleStepper_other_pins hw s pin :
  pin <> STEPPER_ENA_PIN -> pin <> STEPPER_STEP_PIN ->
  pin_writes pin (events handleStepper hw s) = [].
Proof.
  unfold STEPPER_ENA_PIN, STEPPER_STEP_PIN. intros Hena Hstep.
  assert (E8 : (8 =? pin) = false) by (apply Z.eqb_neq; congruence).
  assert (E10 : (10 =? pin) = false) by (apply Z.eqb_neq; congruence).
  destruct s. exec_sketch.
  all: unfold STEPPER_ENA_PIN, STEPPER_STEP_PIN; cbn [pin_writes];
    rewrite ?E8, ?E10; reflexivity.
Qed.

Lemma handleStepper_enable_once hw s :
  List.length (pin_writes STEPPER_ENA_PIN (events handleStepper hw s)) = 1%nat.
Proof. destruct s. exec_sketch. all: reflexivity. Qed.

(** X7. Over any number of iterations the loop writes no pin but the
    stepper's enable and step pins (the direction pin keeps the level
    [setup] gave it), and it writes the enable pin exactly once in every
    iteration. *)
Theorem loop_pins : forall hw n s,
  (forall pin, pin <> STEPPER_ENA_PIN -> pin <> STEPPER_STEP_PIN ->
     pin_writes pin (events (loops n) hw s) = []) /\
  List.length (pin_writes STEPPER_ENA_PIN (events (loops n) hw s)) = n.
Proof.
  intros hw n. induction n as [| n IH]; intros s; [split; reflexivity | ].
  destruct (IH (state_after loop hw s)) as (IHo & IHe).
  rewrite events_loops_S. split.
  - intros pin Hena Hstep.
    rewrite pin_writes_app, loop_pin_writes, IHo by assumption.
    now rewrite handleStepper_other_pins.
  - rewrite pin_writes_app, List.length_app, loop_pin_writes, IHe.
    now rewrite handleStepper_enable_once.
Qed.

(** ** The step line over a run *)

Lemma loops_square_wave hw : forall n s,
  alternating (Level_of_bool (negb (stepState s)))
    (pin_writes STEPPER_STEP_PIN (events (loops n) hw s)) = true /\
  stepState (state_after (loops n) hw s)
    = xorb (stepState s)
        (Nat.odd (List.length (pin_writes STEPPER_STEP_PIN (events (loops n) hw s)))).
Proof.
  induction n as [| n IH]; intros s.
  - split; [reflexivity | ].
    change (state_after (loops 0) hw s) with s. cbn [loops events ret snd pin_writes List.length Nat.odd].
    now rewrite xorb_false_r.
  - rewrite events_loops_S, state_after_loops_S, pin_writes_app.
    destruct (IH (state_after loop hw s)) as (IHa & IHs).
    destruct (loop_pulse_cases hw s) as [(Hw & _ & Hp & _) | (Hw & _ & Hp & _)].
    + rewrite Hw. cbn [app]. rewrite <- Hp. split; assumption.
    + rewrite Hw. cbn [app alternating List.length]. rewrite Level_eqb_refl.
      rewrite Hp in IHa, IHs. split.
      * replace (Level_not (Level_of_bool (negb (stepState s))))
          with (Level_of_bool (negb (negb (stepState s))))
          by (now destruct (stepState s)).
        exact IHa.
      * rewrite IHs, Nat.odd_succ, <- Nat.negb_odd.
        destruct (stepState s), (Nat.odd _); reflexivity.
Qed.

(** X8. Over any number of iterations the levels written to the step pin
    alternate, beginning with the opposite of the phase at the start: the
    step line is a square wave, never written the same level twice in a
    row; and the phase the sketch holds at the end is the one at the start
    flipped once per write. *)
Theorem step_square_wave : forall hw n s,
  alternating (Level_of_bool (negb (stepState s)))
    (pin_writes STEPPER_STEP_PIN (events (loops n) hw s)) = true /\
  stepState (state_after (loops n) hw s)
    = xorb (stepState s)
        (Nat.odd (List.length (pin_writes STEPPER_STEP_PIN (events (loops n) hw s)))).
Proof. intros hw n s. apply loops_square_wave. Qed.

(** ** Timers across a wrap of the clock *)

Lemma usub_elapsed t d :
  0 <= d < ULONG_MAX1 -> usub (to_ulong (t + d)) (to_ulong t) = d.
Proof.
  intros Hd. unfold usub, to_ulong.
  rewrite <- Zminus_mod. replace (t + d - t) with d by lia.
  now apply Z.mod_small.
Qed.

Lemma handleStepper_continuous_pulse hw s :
  currentMode s = CONTINUOUS ->
  stepState (state_after handleStepper hw s)
    = if stepInterval <=? usub (micros_reading hw (micros_calls s)) (lastStepTime s)
      then negb (stepState s) else stepState s.
Proof. destruct s. exec_sketch. all: finish_leaf. Qed.

(** X9. The timers survive a wrap of the 32-bit clock.  If the last step
    was taken when the microsecond clock stood at [t] (of which the sketch
    holds the low 32 bits) and the clock now stands [d] later, with
    [d < 2^32], then the elapsed time the sketch computes is [d], and in
    CONTINUOUS mode the phase flips exactly when [d >= stepInterval],
    also when the counter has wrapped in between. *)
Theorem pulse_survives_wraparound : forall hw s t d,
  0 <= d < ULONG_MAX1 ->
  lastStepTime s = to_ulong t ->
  micros_at hw (micros_calls s) = t + d ->
  currentMode s = CONTINUOUS ->
  usub (micros_reading hw (micros_calls s)) (lastStepTime s) = d /\
  (stepState (state_after handleStepper hw s) = negb (stepState s)
   <-> stepInterval <= d).
Proof.
  intros hw s t d Hd Hlast Hnow Hmode.
  assert (He : usub (micros_reading hw (micros_calls s)) (lastStepTime s) = d)
    by (unfold micros_reading; rewrite Hlast, Hnow; now apply usub_elapsed).
  split; [exact He | ].
  rewrite (handleStepper_continuous_pulse hw s Hmode), He.
  destruct (Z.leb_spec stepInterval d); split; intros H'; try lia; try reflexivity.
  destruct (stepState s); discriminate H'.
Qed.

Lemma pulse_survives_wraparound_witness :
  usub (micros_reading (hw_clock 0 (2 ^ 32 + 200))
          (micros_calls (set_lastStepTime (2 ^ 32 - 400) sys_stepping)))
       (lastStepTime (set_lastStepTime (2 ^ 32 - 400) sys_stepping)) = 600 /\
  stepState (state_after handleStepper (hw_clock 0 (2 ^ 32 + 200))
               (set_lastStepTime (2 ^ 32 - 400) sys_stepping)) = true.
Proof.
  destruct (pulse_survives_wraparound (hw_clock 0 (2 ^ 32 + 200))
              (set_lastStepTime (2 ^ 32 - 400) sys_stepping)
              (2 ^ 32 - 400) 600) as (He & Hflip).
  - vm_compute. split; [discriminate | reflexivity].
  - reflexivity.
  - reflexivity.
  - reflexivity.
  - split; [exact He | ]. apply Hflip. vm_compute. discriminate.
Defined.

(** ** The status line *)

Lemma handleStepper_status_cases hw s :
  tx_lines (events handleStepper hw s)
    = if status_due hw s
      then [status_line (currentMode s)
              (motor_wanted (state_after handleStepper hw s))]
      else [].
Proof.
  destruct s. unfold motor_wanted. exec_sketch. all: reflexivity.
Qed.

Lemma is_status_line_status m active : is_status_line (status_line m active) = true.
Proof. destruct m, active; reflexivity. Qed.

Lemma checkIrSensor_no_status hw s :
  status_lines (events checkIrSensor hw s) = [].
Proof.
  destruct (checkIrSensor_cases hw s) as (_ & _ & [H | [H | H]]).
  - destruct H as (_ & _ & -> & _). reflexivity.
  - destruct H as (_ & _ & _ & _ & -> & _). reflexivity.
  - destruct H as (_ & _ & _ & _ & -> & _).
    destruct (beamIsBroken s); reflexivity.
Qed.

Lemma checkSerialCommands_no_status hw s :
  status_lines (events checkSerialCommands hw s) = [].
Proof. destruct s. exec_sketch. all: reflexivity. Qed.

Lemma loop_status hw s :
  status_lines (events loop hw s) = status_lines (events handleStepper hw s) /\
  lastStatusTime (state_after loop hw s)
    = lastStatusTime (state_after handleStepper hw s).
Proof.
  unfold loop. rewrite !state_after_seq, !events_seq.
  set (s1 := state_after handleStepper hw s).
  set (s2 := state_after checkIrSensor hw s1).
  destruct (handleStepper_lines hw s) as (Hp0 & _).
  destruct (checkIrSensor_beam hw s1) as (Hp1 & _).
  destruct (checkIrSensor_frame hw s1) as (_ & _ & _ & Hl1 & _).
  destruct (checkSerialCommands_frame hw s2)
    as (_ & _ & _ & _ & _ & _ & _ & _ & Hl2 & _).
  fold s2 in Hl1. split; [ | now rewrite Hl2, Hl1].
  unfold status_lines.
  rewrite tx_lines_app, filter_app, tx_lines_app, filter_app by assumption.
  fold (status_lines (events checkIrSensor hw s1)).
  fold (status_lines (events checkSerialCommands hw s2)).
  now rewrite checkIrSensor_no_status, checkSerialCommands_no_status, !app_nil_r.
Qed.

Section StatusRuns.

Variable hw : Hardware.

Lemma loops_no_status : forall n s,
  (forall j, (millis_calls s <= j)%nat ->
     usub (millis_reading hw j) (lastStatusTime s) <= 1000) ->
  status_lines (events (loops n) hw s) = [].
Proof.
  induction n as [| n IH]; intros s Hwin; [reflexivity | ].
  rewrite events_loops_S.
  destruct (loop_beam hw s) as (Hp & _).
  destruct (loop_status hw s) as (Hl & Ht).
  destruct (loop_counters hw s) as (_ & _ & Hms).
  destruct (handleStepper_clock hw s) as (_ & Ht0).
  assert (Hdue : status_due hw s = false).
  { unfold status_due. apply Z.ltb_ge. apply Hwin. lia. }
  unfold status_lines at 1. rewrite tx_lines_app, filter_app by exact Hp.
  fold (status_lines (events loop hw s)).
  fold (status_lines (events (loops n) hw (state_after loop hw s))).
  rewrite Hl. unfold status_lines at 1.
  rewrite handleStepper_status_cases, Hdue. cbn [filter app].
  apply IH. intros j Hj. rewrite Ht, Ht0, Hdue. apply Hwin. lia.
Qed.

Lemma loops_one_status : forall n s,
  (forall i j, (millis_calls s <= i)%nat -> (i <= j)%nat ->
     usub (millis_reading hw j) (millis_reading hw i) <= 1000) ->
  (List.length (status_lines (events (loops n) hw s)) <= 1)%nat.
Proof.
  induction n as [| n IH]; intros s Hwin; [cbn; lia | ].
  rewrite events_loops_S.
  destruct (loop_beam hw s) as (Hp & _).
  destruct (loop_status hw s) as (Hl & Ht).
  destruct (loop_counters hw s) as (_ & _ & Hms).
  destruct (handleStepper_clock hw s) as (_ & Ht0).
  unfold status_lines at 1. rewrite tx_lines_app, filter_app by exact Hp.
  fold (status_lines (events loop hw s)).
  fold (status_lines (events (loops n) hw (state_after loop hw s))).
  rewrite Hl, List.length_app. unfold status_lines at 1.
  rewrite handleStepper_status_cases.
  destruct (status_due hw s) eqn:Hdue.
  - cbn [filter]. rewrite is_status_line_status. cbn [List.length].
    rewrite loops_no_status; [cbn; lia | ].
    intros j Hj. rewrite Ht, Ht0. apply Hwin; lia.
  - cbn [filter List.length]. apply IH.
    intros i j Hi Hij. apply Hwin; lia.
Qed.

End StatusRuns.

(** X10. The status line.  An evaluation of [handleStepper] sends the
    status line when the clock reads more than 1000 ms past
    [lastStatusTime] (unsigned subtraction) and then takes a fresh reading
    as the new [lastStatusTime]; otherwise it sends nothing and keeps
    [lastStatusTime].  The line is "Mode: <mode> | Motor Active: YES" or
    "... NO", with the mode in force and the answer just driven on the
    enable line.  So over any number of iterations whose clock readings all
    lie within 1000 ms of one another, at most one status line is sent:
    the line does not flood the channel. *)
Theorem status_report : forall hw s,
  let s' := state_after handleStepper hw s in
  tx_lines (events handleStepper hw s)
    = (if status_due hw s
       then [status_line (currentMode s) (motor_wanted s')]
       else []) /\
  pin_writes STEPPER_ENA_PIN (events handleStepper hw s)
    = [if motor_wanted s' then LOW else HIGH] /\
  lastStatusTime s'
    = (if status_due hw s then millis_reading hw (1 + millis_calls s)
       else lastStatusTime s) /\
  (forall n,
     (forall i j, (millis_calls s <= i)%nat -> (i <= j)%nat ->
        usub (millis_reading hw j) (millis_reading hw i) <= 1000) ->
     (List.length (status_lines (events (loops n) hw s)) <= 1)%nat).
Proof.
  intros hw s. cbv zeta.
  split; [apply handleStepper_status_cases | ].
  split; [ | split].
  - destruct s. unfold motor_wanted. exec_sketch. all: reflexivity.
  - apply handleStepper_clock.
  - intros n. apply loops_one_status.
Qed.

Lemma status_report_witness :
  tx_lines (events handleStepper (hw_clock 8000 0) sys_run_out)
    = ["Mode: TRIGGER | Motor Active: NO"%string] /\
  (List.length (status_lines (events (loops 4) (hw_clock 8000 0) sys_run_out)) <= 1)%nat.
Proof.
  destruct (status_report (hw_clock 8000 0) sys_run_out) as (Hline & _ & _ & Hone).
  split; [exact Hline | ].
  apply Hone. intros i j _ _. vm_compute. discriminate.
Defined.

(** ** The lines a host can receive *)

Ltac finish_known_lines :=
  repeat (apply Forall_cons; [unfold known_line; cbn; auto 10 | ]);
  apply Forall_nil.

Lemma handleStepper_known_lines hw s :
  Forall known_line (tx_lines (events handleStepper hw s)).
Proof.
  rewrite handleStepper_status_cases.
  destruct (status_due hw s); [ | apply Forall_nil].
  apply Forall_cons; [ | apply Forall_nil].
  unfold known_line. do 4 right. eauto.
Qed.

Lemma checkIrSensor_known_lines hw s :
  Forall known_line (tx_lines (events checkIrSensor hw s)).
Proof.
  destruct (checkIrSensor_cases hw s) as (_ & _ & [H | [H | H]]).
  - destruct H as (_ & _ & -> & _). apply Forall_nil.
  - destruct H as (_ & _ & _ & _ & -> & _). finish_known_lines.
  - destruct H as (_ & _ & _ & _ & -> & _).
    destruct (beamIsBroken s); [ | apply Forall_nil].
    apply Forall_cons; [ | apply Forall_nil].
    unfold known_line. do 2 right. left.
    exists (usub (ir_event_time hw s) (beamBrokenStartTime s)).
    split; [apply usub_range | reflexivity].
Qed.

Lemma checkSerialCommands_known_lines hw s :
  Forall known_line (tx_lines (events checkSerialCommands hw s)).
Proof. destruct s. exec_sketch. all: finish_known_lines. Qed.

Lemma loops_known_lines hw : forall n s,
  Forall known_line (tx_lines (events (loops n) hw s)) /\
  tx_pending "" (events (loops n) hw s) = ""%string.
Proof.
  induction n as [| n IH]; intros s; [split; [apply Forall_nil | reflexivity] | ].
  rewrite events_loops_S.
  destruct (loop_beam hw s) as (Hp & _).
  destruct (IH (state_after loop hw s)) as (IHl & IHp).
  rewrite tx_lines_app, tx_pending_app, Hp by exact Hp.
  split; [ | exact IHp].
  apply Forall_app. split; [ | exact IHl].
  unfold loop. rewrite !events_seq.
  destruct (handleStepper_lines hw s) as (Hp0 & _).
  destruct (checkIrSensor_beam hw (state_after handleStepper hw s)) as (Hp1 & _).
  rewrite tx_lines_app, tx_lines_app, !Forall_app by assumption.
  repeat split.
  - apply handleStepper_known_lines.
  - apply checkIrSensor_known_lines.
  - apply checkSerialCommands_known_lines.
Qed.

(** X11. Everything the sketch ever sends, from power-up through any
    number of iterations, is a sequence of complete lines, each of them the
    start-up line, "B", "L:" followed by the decimal numeral of a 32-bit
    number, one of the three mode confirmations, or a status line; no line
    is left unfinished at the end of an iteration. *)
Theorem known_lines_only : forall hw n a1 a2 a3,
  Forall known_line (tx_lines (events (sketch n) hw (boot a1 a2 a3))) /\
  tx_pending "" (events (sketch n) hw (boot a1 a2 a3)) = ""%string.
Proof.
  intros hw n a1 a2 a3. unfold sketch. rewrite events_seq.
  destruct (setup_lines hw (boot a1 a2 a3)) as (Hp & _).
  destruct (loops_known_lines hw n (state_after setup hw (boot a1 a2 a3)))
    as (Hl & Hpend).
  rewrite tx_lines_app, tx_pending_app, Hp by exact Hp.
  split; [ | exact Hpend].
  apply Forall_app. split; [ | exact Hl].
  run_sketch. finish_known_lines.
Qed.

(** * The IR trigger and sorter sketch: properties *)

Ltac run_sorter :=
  cbv [IrTriggerAndSort.state_after IrTriggerAndSort.events
       IrTriggerAndSort.sketch IrTriggerAndSort.loops IrTriggerAndSort.loop
       IrTriggerAndSort.setup IrTriggerAndSort.checkIrSensor
       IrTriggerAndSort.checkSerialCommands IrTriggerAndSort.activateServoGate
       IrTriggerAndSort.Servo_write IrTriggerAndSort.delay
       IrTriggerAndSort.Serial_println IrTriggerAndSort.Serial_poll
       IrTriggerAndSort.digitalWrite IrTriggerAndSort.digitalRead
       IrTriggerAndSort.millis
       IrTriggerAndSort.bind IrTriggerAndSort.ret IrTriggerAndSort.gets
       IrTriggerAndSort.modify IrTriggerAndSort.emit
       IrTriggerAndSort.servo_angle IrTriggerAndSort.set_servo_angle
       IrTriggerAndSort.set_lastIrState IrTriggerAndSort.set_lastTriggerTime
       IrTriggerAndSort.set_servo1_angle IrTriggerAndSort.set_servo2_angle
       IrTriggerAndSort.set_servo3_angle IrTriggerAndSort.set_millis_calls
       IrTriggerAndSort.set_ir_reads IrTriggerAndSort.set_serial_polls
       IrTriggerAndSort.lastIrState IrTriggerAndSort.lastTriggerTime
       IrTriggerAndSort.servo1_angle IrTriggerAndSort.servo2_angle
       IrTriggerAndSort.servo3_angle IrTriggerAndSort.millis_calls
       IrTriggerAndSort.ir_reads IrTriggerAndSort.serial_polls
       IrTriggerAndSort.debounceDelay millis_reading Nat.add
       Level_eqb negb andb fst snd app].

Ltac exec_sorter := run_sorter; repeat (split_cond; run_sorter).

Lemma sorter_state_after_seq {A B}
    (m : IrTriggerAndSort.M A) (k : IrTriggerAndSort.M B) hw s :
  IrTriggerAndSort.state_after (IrTriggerAndSort.bind m (fun _ => k)) hw s
    = IrTriggerAndSort.state_after k hw (IrTriggerAndSort.state_after m hw s).
Proof.
  unfold IrTriggerAndSort.state_after, IrTriggerAndSort.bind.
  destruct (m hw s) as [[a s1] e1]. cbn. destruct (k hw s1) as [[b s2] e2].
  reflexivity.
Qed.

Lemma sorter_events_seq {A B}
    (m : IrTriggerAndSort.M A) (k : IrTriggerAndSort.M B) hw s :
  IrTriggerAndSort.events (IrTriggerAndSort.bind m (fun _ => k)) hw s
    = IrTriggerAndSort.events m hw s
      ++ IrTriggerAndSort.events k hw (IrTriggerAndSort.state_after m hw s).
Proof.
  unfold IrTriggerAndSort.events, IrTriggerAndSort.state_after, IrTriggerAndSort.bind.
  destruct (m hw s) as [[a s1] e1]. cbn. destruct (k hw s1) as [[b s2] e2].
  reflexivity.
Qed.

(** One iteration either reports a broken beam, having read the clock more
    than [debounceDelay] past the last report, or sends nothing and keeps
    the time of the last report. *)
Lemma sorter_loop_cases hw s :
  let s' := IrTriggerAndSort.state_after IrTriggerAndSort.loop hw s in
  let ev := IrTriggerAndSort.events IrTriggerAndSort.loop hw s in
  let m := IrTriggerAndSort.millis_calls s in
  tx_pending "" ev = ""%string /\
  ((tx_lines ev = [] /\
    IrTriggerAndSort.lastTriggerTime s' = IrTriggerAndSort.lastTriggerTime s /\
    (m <= IrTriggerAndSort.millis_calls s')%nat)
   \/
   (tx_lines ev = ["B"%string] /\
    IrTriggerAndSort.lastTriggerTime s' = millis_reading hw (1 + m) /\
    IrTriggerAndSort.debounceDelay
      < usub (millis_reading hw m) (IrTriggerAndSort.lastTriggerTime s) /\
    IrTriggerAndSort.millis_calls s' = (2 + m)%nat)).
Proof.
  destruct s. cbv zeta. exec_sorter.
  all: split; [reflexivity | ].
  all: try (left; repeat split; try reflexivity; lia).
  all: right; repeat split; try reflexivity; lia.
Qed.

Section SorterRuns.

Variable hw : Hardware.

Lemma sorter_loops_S n s :
  IrTriggerAndSort.events (IrTriggerAndSort.loops (S n)) hw s
    = IrTriggerAndSort.events IrTriggerAndSort.loop hw s
      ++ IrTriggerAndSort.events (IrTriggerAndSort.loops n) hw
           (IrTriggerAndSort.state_after IrTriggerAndSort.loop hw s).
Proof. cbn [IrTriggerAndSort.loops]. apply sorter_events_seq. Qed.

Lemma sorter_loops_held_off : forall n s,
  (forall j, (IrTriggerAndSort.millis_calls s <= j)%nat ->
     usub (millis_reading hw j) (IrTriggerAndSort.lastTriggerTime s)
       <= IrTriggerAndSort.debounceDelay) ->
  tx_lines (IrTriggerAndSort.events (IrTriggerAndSort.loops n) hw s) = [].
Proof.
  induction n as [| n IH]; intros s Hwin; [reflexivity | ].
  rewrite sorter_loops_S.
  destruct (sorter_loop_cases hw s) as (Hp & [(Hl & Ht & Hm) | (_ & _ & Hgt & _)]).
  - rewrite tx_lines_app, Hl by exact Hp. cbn [app]. apply IH.
    intros j Hj. rewrite Ht. apply Hwin. lia.
  - specialize (Hwin (IrTriggerAndSort.millis_calls s) (Nat.le_refl _)). lia.
Qed.

Lemma sorter_loops_one_break : forall n s,
  (forall i j, (IrTriggerAndSort.millis_calls s <= i)%nat -> (i <= j)%nat ->
     usub (millis_reading hw j) (millis_reading hw i)
       <= IrTriggerAndSort.debounceDelay) ->
  (List.length (tx_lines (IrTriggerAndSort.events (IrTriggerAndSort.loops n) hw s))
   <= 1)%nat.
Proof.
  induction n as [| n IH]; intros s Hwin; [cbn; lia | ].
  rewrite sorter_loops_S.
  destruct (sorter_loop_cases hw s) as (Hp & [(Hl & _ & Hm) | (Hl & Ht & _ & Hm)]).
  - rewrite tx_lines_app, Hl by exact Hp. cbn [app]. apply IH.
    intros i j Hi Hij. apply Hwin; lia.
  - rewrite tx_lines_app, Hl by exact Hp.
    rewrite sorter_loops_held_off; [cbn; lia | ].
    intros j Hj. rewrite Ht. apply Hwin; lia.
Qed.

End SorterRuns.

(** X12. The sorter sketch's beam report.  A poll changes [lastIrState]
    only to a sample that differs from it, and only when the clock reads
    more than [debounceDelay] (50 ms, unsigned subtraction) past
    [lastTriggerTime]; it sends "B" exactly when the change is from HIGH to
    LOW, and only then takes a fresh reading as [lastTriggerTime]; a change
    back to HIGH is accepted silently.  So after a "B" both edges are held
    off for 50 ms, and over any number of iterations whose clock readings
    all lie within 50 ms of one another at most one "B" is sent. *)
Theorem sorter_break_report : forall hw s,
  let s' := IrTriggerAndSort.state_after IrTriggerAndSort.checkIrSensor hw s in
  let ev := IrTriggerAndSort.events IrTriggerAndSort.checkIrSensor hw s in
  let sample := ir_at hw (IrTriggerAndSort.ir_reads s) in
  let broke :=
    Level_eqb (IrTriggerAndSort.lastIrState s) HIGH
    && Level_eqb (IrTriggerAndSort.lastIrState s') LOW in
  (IrTriggerAndSort.lastIrState s' <> IrTriggerAndSort.lastIrState s ->
     sample <> IrTriggerAndSort.lastIrState s /\
     IrTriggerAndSort.lastIrState s' = sample /\
     IrTriggerAndSort.debounceDelay
       < usub (millis_reading hw (IrTriggerAndSort.millis_calls s))
              (IrTriggerAndSort.lastTriggerTime s)) /\
  ev = (if broke then [SerialPrintln "B"] else []) /\
  IrTriggerAndSort.lastTriggerTime s'
    = (if broke then millis_reading hw (1 + IrTriggerAndSort.millis_calls s)
       else IrTriggerAndSort.lastTriggerTime s) /\
  (forall n,
     (forall i j, (IrTriggerAndSort.millis_calls s <= i)%nat -> (i <= j)%nat ->
        usub (millis_reading hw j) (millis_reading hw i)
          <= IrTriggerAndSort.debounceDelay) ->
     (List.length
        (tx_lines (IrTriggerAndSort.events (IrTriggerAndSort.loops n) hw s))
      <= 1)%nat).
Proof.
  intros hw s. cbv zeta. split; [ | split; [ | split]].
  - destruct s. exec_sorter.
    all: intros Hne; try (now elim Hne); repeat split; try discriminate; lia.
  - destruct s. exec_sorter. all: reflexivity.
  - destruct s. exec_sorter. all: reflexivity.
  - intros n. apply sorter_loops_one_break.
Qed.

Lemma sorter_break_report_witness :
  (List.length
     (tx_lines
        (IrTriggerAndSort.events (IrTriggerAndSort.loops 3) (hw_clock 520 0)
           IrTriggerAndSort.sys_broken)) <= 1)%nat.
Proof.
  destruct (sorter_break_report (hw_clock 520 0) IrTriggerAndSort.sys_broken)
    as (_ & _ & _ & Hone).
  apply Hone. intros i j _ _. vm_compute. discriminate.
Defined.

(** X13. The sorter sketch's commands.  A byte '1', '2' or '3' found at
    the poll opens gate 1, 2 or 3 to 90 degrees, waits [delay(1000)] and
    closes it to 0, and nothing else changes; any other byte, the mode
    commands of the master controller among them, is dropped without any
    effect but being consumed. *)
Theorem sorter_gate_command : forall hw s c,
  rx_at hw (IrTriggerAndSort.serial_polls s) = Some c ->
  let s' := IrTriggerAndSort.state_after IrTriggerAndSort.checkSerialCommands hw s in
  let ev := IrTriggerAndSort.events IrTriggerAndSort.checkSerialCommands hw s in
  let consumed :=
    IrTriggerAndSort.set_serial_polls (S (IrTriggerAndSort.serial_polls s)) s in
  (forall g, In (c, g) [("1"%char, servo1); ("2"%char, servo2); ("3"%char, servo3)] ->
     ev = [ServoWrite g 90; Delay 1000; ServoWrite g 0] /\
     s' = IrTriggerAndSort.set_servo_angle g 0 consumed) /\
  (~ In c ["1"; "2"; "3"]%char -> ev = [] /\ s' = consumed).
Proof.
  intros hw s c Hrx. cbv zeta. revert Hrx. destruct s. run_sorter. intros ->.
  split.
  - intros g Hin. cbn in Hin.
    destruct Hin as [H | [H | [H | []]]]; inversion H; subst; split; reflexivity.
  - intros Hnot. cbn in Hnot.
    repeat match goal with
    | |- context [Ascii.eqb c ?k] =>
        destruct (Ascii.eqb_spec c k) as [-> | _]; [exfalso; tauto | ]
    end.
    split; reflexivity.
Qed.

Lemma sorter_gate_command_witness :
  IrTriggerAndSort.events IrTriggerAndSort.checkSerialCommands
    (hw_quiet (Some "3"%char)) IrTriggerAndSort.sys_broken
    = [ServoWrite servo3 90; Delay 1000; ServoWrite servo3 0] /\
  IrTriggerAndSort.events IrTriggerAndSort.checkSerialCommands
    (hw_quiet (Some "T"%char)) IrTriggerAndSort.sys_broken = [].
Proof.
  split.
  - destruct (sorter_gate_command (hw_quiet (Some "3"%char))
                IrTriggerAndSort.sys_broken "3"%char eq_refl) as (Hgate & _).
    apply (Hgate servo3). cbn. auto.
  - destruct (sorter_gate_command (hw_quiet (Some "T"%char))
                IrTriggerAndSort.sys_broken "T"%char eq_refl) as (_ & Hother).
    apply Hother. cbn. intros H.
    repeat (destruct H as [H | H]; [discriminate H | ]). exact H.
Defined.

Lemma sorter_loop_outputs hw s :
  let s' := IrTriggerAndSort.state_after IrTriggerAndSort.loop hw s in
  let ev := IrTriggerAndSort.events IrTriggerAndSort.loop hw s in
  Forall (eq "B"%string) (tx_lines ev) /\
  (forall pin, pin_writes pin ev = []) /\
  ((forall g, IrTriggerAndSort.servo_angle g s = 0) ->
   forall g, IrTriggerAndSort.servo_angle g s' = 0).
Proof.
  destruct s. cbv zeta. exec_sorter.
  all: repeat split;
    [ repeat (apply Forall_cons; [reflexivity | ]); apply Forall_nil
    | intros Hs g; pose proof (Hs servo1); pose proof (Hs servo2);
      pose proof (Hs servo3); destruct g; cbn in *; congruence ].
Qed.

Lemma sorter_loops_outputs hw : forall n s,
  Forall (eq "B"%string)
    (tx_lines (IrTriggerAndSort.events (IrTriggerAndSort.loops n) hw s)) /\
  (forall pin,
     pin_writes pin (IrTriggerAndSort.events (IrTriggerAndSort.loops n) hw s) = []) /\
  ((forall g, IrTriggerAndSort.servo_angle g s = 0) ->
   forall g,
     IrTriggerAndSort.servo_angle g
       (IrTriggerAndSort.state_after (IrTriggerAndSort.loops n) hw s) = 0).
Proof.
  induction n as [| n IH]; intros s.
  - repeat split; [apply Forall_nil | auto].
  - rewrite sorter_loops_S. cbn [IrTriggerAndSort.loops].
    rewrite sorter_state_after_seq.
    destruct (sorter_loop_outputs hw s) as (Hl & Hw & Hs).
    destruct (sorter_loop_cases hw s) as (Hp & _).
    destruct (IH (IrTriggerAndSort.state_after IrTriggerAndSort.loop hw s))
      as (IHl & IHw & IHs).
    repeat split.
    + rewrite tx_lines_app by exact Hp. apply Forall_app. now split.
    + intros pin. now rewrite pin_writes_app, Hw, IHw.
    + intros H0. now apply IHs, Hs.
Qed.

(** X14. What the sorter sketch does and never does, from power-up through
    any number of iterations: the only line it sends is "B"; the stepper
    stays disabled, its enable pin being driven HIGH once in [setup] and no
    pin being written afterwards; and at the end of every iteration all
    three gates are closed. *)
Theorem sorter_outputs : forall hw n a1 a2 a3,
  let s0 := IrTriggerAndSort.boot a1 a2 a3 in
  let ev := IrTriggerAndSort.events (IrTriggerAndSort.sketch n) hw s0 in
  Forall (eq "B"%string) (tx_lines ev) /\
  pin_writes STEPPER_ENA_PIN ev = [HIGH] /\
  (forall pin, pin <> STEPPER_ENA_PIN -> pin_writes pin ev = []) /\
  (forall g,
     IrTriggerAndSort.servo_angle g
       (IrTriggerAndSort.state_after (IrTriggerAndSort.sketch n) hw s0) = 0).
Proof.
  intros hw n a1 a2 a3. cbv zeta. unfold IrTriggerAndSort.sketch.
  rewrite sorter_events_seq, sorter_state_after_seq.
  set (s1 := IrTriggerAndSort.state_after IrTriggerAndSort.setup hw
               (IrTriggerAndSort.boot a1 a2 a3)).
  destruct (sorter_loops_outputs hw n s1) as (Hl & Hw & Hs).
  assert (Hsetup : IrTriggerAndSort.events IrTriggerAndSort.setup hw
                     (IrTriggerAndSort.boot a1 a2 a3)
                   = [SerialBegin 9600; SetPinMode IR_SENSOR_PIN INPUT_PULLUP;
                      SetPinMode STEPPER_ENA_PIN OUTPUT;
                      SetPinMode STEPPER_DIR_PIN OUTPUT;
                      SetPinMode STEPPER_STEP_PIN OUTPUT;
                      DigitalWrite STEPPER_ENA_PIN HIGH;
                      ServoAttach servo1 SERVO_1_PIN; ServoAttach servo2 SERVO_2_PIN;
                      ServoAttach servo3 SERVO_3_PIN;
                      ServoWrite servo1 0; ServoWrite servo2 0; ServoWrite servo3 0])
    by reflexivity.
  rewrite Hsetup. repeat split.
  - rewrite tx_lines_app by reflexivity. exact Hl.
  - rewrite pin_writes_app, Hw. reflexivity.
  - intros pin Hpin. rewrite pin_writes_app, Hw. cbn [pin_writes app].
    destruct (Z.eqb_spec STEPPER_ENA_PIN pin); [congruence | reflexivity].
  - apply Hs. intros g. now destruct g.
Qed.

(** * The calibration sketch: properties *)

Ltac run_calibration :=
  cbv [Calibration.state_after Calibration.events
       Calibration.sketch Calibration.loops Calibration.loop Calibration.setup
       Calibration.checkSerialCommands Calibration.activateAllServos
       Calibration.Servo_write Calibration.delay Calibration.Serial_println
       Calibration.Serial_println_char Calibration.Serial_poll
       Calibration.bind Calibration.ret Calibration.modify Calibration.emit
       Calibration.servo_angle Calibration.set_servo_angle
       Calibration.set_currentMode Calibration.set_servo1_angle
       Calibration.set_servo2_angle Calibration.set_servo3_angle
       Calibration.set_servo4_angle Calibration.set_serial_polls
       Calibration.currentMode Calibration.servo1_angle Calibration.servo2_angle
       Calibration.servo3_angle Calibration.servo4_angle Calibration.serial_polls
       Calibration.commanded_angle Calibration.tx_lines flat_map
       fst snd app].

Ltac exec_calibration := run_calibration; repeat (split_cond; run_calibration).

Lemma calibration_state_after_seq {A B}
    (m : Calibration.M A) (k : Calibration.M B) hw s :
  Calibration.state_after (Calibration.bind m (fun _ => k)) hw s
    = Calibration.state_after k hw (Calibration.state_after m hw s).
Proof.
  unfold Calibration.state_after, Calibration.bind.
  destruct (m hw s) as [[a s1] e1]. cbn. destruct (k hw s1) as [[b s2] e2].
  reflexivity.
Qed.

Lemma calibration_events_seq {A B}
    (m : Calibration.M A) (k : Calibration.M B) hw s :
  Calibration.events (Calibration.bind m (fun _ => k)) hw s
    = Calibration.events m hw s
      ++ Calibration.events k hw (Calibration.state_after m hw s).
Proof.
  unfold Calibration.events, Calibration.state_after, Calibration.bind.
  destruct (m hw s) as [[a s1] e1]. cbn. destruct (k hw s1) as [[b s2] e2].
  reflexivity.
Qed.

Lemma calibration_tx_lines_app e1 e2 :
  Calibration.tx_lines (e1 ++ e2) = Calibration.tx_lines e1 ++ Calibration.tx_lines e2.
Proof. unfold Calibration.tx_lines. apply flat_map_app. Qed.

(** One poll: the byte found is echoed, and the servos all take the angle
    it asks for, if it asks for one. *)
Lemma calibration_loop_cases hw s :
  let s' := Calibration.state_after Calibration.loop hw s in
  let ev := Calibration.events Calibration.loop hw s in
  Calibration.serial_polls s' = S (Calibration.serial_polls s) /\
  match rx_at hw (Calibration.serial_polls s) with
  | None =>
      Calibration.tx_lines ev = [] /\
      forall g, Calibration.servo_angle g s' = Calibration.servo_angle g s
  | Some c =>
      Calibration.tx_lines ev = [String c EmptyString] /\
      match Calibration.commanded_angle c with
      | Some a => forall g, Calibration.servo_angle g s' = a
      | None => forall g, Calibration.servo_angle g s' = Calibration.servo_angle g s
      end
  end.
Proof.
  destruct s as [mode a1 a2 a3 a4 polls]. cbv zeta. run_calibration.
  destruct (rx_at hw polls) as [c | ]; run_calibration.
  - repeat match goal with
    | |- context [Ascii.eqb c ?k] =>
        destruct (Ascii.eqb_spec c k) as [-> | _]; cbn
    end.
    all: repeat split; intros []; reflexivity.
  - repeat split; intros []; reflexivity.
Qed.

Section CalibrationRuns.

Variable hw : Hardware.

Lemma calibration_loops_S_events n s :
  Calibration.events (Calibration.loops (S n)) hw s
    = Calibration.events Calibration.loop hw s
      ++ Calibration.events (Calibration.loops n) hw
           (Calibration.state_after Calibration.loop hw s).
Proof. cbn [Calibration.loops]. apply calibration_events_seq. Qed.

Lemma calibration_loops_S_state n s :
  Calibration.state_after (Calibration.loops (S n)) hw s
    = Calibration.state_after (Calibration.loops n) hw
        (Calibration.state_after Calibration.loop hw s).
Proof. cbn [Calibration.loops]. apply calibration_state_after_seq. Qed.

Lemma calibration_loops_echo : forall n s,
  Calibration.tx_lines (Calibration.events (Calibration.loops n) hw s)
    = map (fun c => String c EmptyString)
        (Calibration.received hw (Calibration.serial_polls s) n).
Proof.
  induction n as [| n IH]; intros s; [reflexivity | ].
  rewrite calibration_loops_S_events, calibration_tx_lines_app, IH.
  destruct (calibration_loop_cases hw s) as (Hp & Hcase).
  rewrite Hp. cbn [Calibration.received].
  destruct (rx_at hw (Calibration.serial_polls s)) as [c | ].
  - destruct Hcase as (-> & _). reflexivity.
  - destruct Hcase as (-> & _). reflexivity.
Qed.

Lemma calibration_loops_follow : forall n s a,
  (forall g, Calibration.servo_angle g s = a) ->
  forall g,
    Calibration.servo_angle g (Calibration.state_after (Calibration.loops n) hw s)
      = Calibration.final_angle a
          (Calibration.received hw (Calibration.serial_polls s) n).
Proof.
  induction n as [| n IH]; intros s a Hall g; [apply Hall | ].
  rewrite calibration_loops_S_state.
  destruct (calibration_loop_cases hw s) as (Hp & Hcase).
  cbn [Calibration.received].
  destruct (rx_at hw (Calibration.serial_polls s)) as [c | ].
  - destruct Hcase as (_ & Hangle).
    unfold Calibration.final_angle. cbn [fold_left].
    fold (Calibration.final_angle
            match Calibration.commanded_angle c with
            | Some a' => a'
            | None => a
            end
            (Calibration.received hw (S (Calibration.serial_polls s)) n)).
    rewrite <- Hp. apply IH. intros g'.
    destruct (Calibration.commanded_angle c); [apply Hangle | ].
    rewrite Hangle. apply Hall.
  - destruct Hcase as (_ & Hangle). rewrite <- Hp. apply IH.
    intros g'. rewrite Hangle. apply Hall.
Qed.

Lemma calibration_loop_mode hw' s m :
  Calibration.events Calibration.loop hw' (Calibration.set_currentMode m s)
    = Calibration.events Calibration.loop hw' s /\
  exists m',
    Calibration.state_after Calibration.loop hw' (Calibration.set_currentMode m s)
      = Calibration.set_currentMode m'
          (Calibration.state_after Calibration.loop hw' s).
Proof.
  destruct s. exec_calibration.
  all: split; [reflexivity | eexists; reflexivity].
Qed.

Lemma calibration_loops_mode : forall n s m,
  Calibration.events (Calibration.loops n) hw (Calibration.set_currentMode m s)
    = Calibration.events (Calibration.loops n) hw s /\
  exists m',
    Calibration.state_after (Calibration.loops n) hw (Calibration.set_currentMode m s)
      = Calibration.set_currentMode m'
          (Calibration.state_after (Calibration.loops n) hw s).
Proof.
  induction n as [| n IH]; intros s m.
  - split; [reflexivity | exists m; reflexivity].
  - rewrite !calibration_loops_S_events, !calibration_loops_S_state.
    destruct (calibration_loop_mode hw s m) as (He & m1 & Hs).
    rewrite He, Hs.
    destruct (IH (Calibration.state_after Calibration.loop hw s) m1) as (IHe & IHs).
    rewrite IHe. split; [reflexivity | exact IHs].
Qed.

End CalibrationRuns.

(** X15. The calibration sketch moves its four servos together.  After
    [setup] and any number of polls, all four servos are at one angle: the
    one asked for by the last byte received that asks for one ('1' 90,
    '2' 45, '3' 135, '0' 0, 'X' 90), or the 90 degrees of [setup] when no
    such byte has arrived. *)
Theorem calibration_servos_follow_commands : forall hw n a1 a2 a3 a4 g,
  Calibration.servo_angle g
    (Calibration.state_after (Calibration.sketch n) hw (Calibration.boot a1 a2 a3 a4))
  = Calibration.final_angle 90 (Calibration.received hw 0 n).
Proof.
  intros hw n a1 a2 a3 a4 g. unfold Calibration.sketch.
  rewrite calibration_state_after_seq.
  change 0%nat with
    (Calibration.serial_polls
       (Calibration.state_after Calibration.setup hw (Calibration.boot a1 a2 a3 a4))).
  apply calibration_loops_follow. intros []; reflexivity.
Qed.

(** X16. The calibration sketch echoes what it receives: over any number
    of polls the lines it sends are the bytes found, each as a line of its
    own and in the order received, unknown bytes included, and nothing
    else. *)
Theorem calibration_echo : forall hw n s,
  Calibration.tx_lines (Calibration.events (Calibration.loops n) hw s)
    = map (fun c => String c EmptyString)
        (Calibration.received hw (Calibration.serial_polls s) n).
Proof. intros hw n s. apply calibration_loops_echo. Qed.

(** X17. The mode of the calibration sketch is recorded and never read:
    started in another mode, the sketch sends the same lines, writes the
    same servos and leaves them at the same angles, whatever arrives. *)
Theorem calibration_mode_inert : forall hw n s m,
  Calibration.events (Calibration.loops n) hw (Calibration.set_currentMode m s)
    = Calibration.events (Calibration.loops n) hw s /\
  forall g,
    Calibration.servo_angle g
      (Calibration.state_after (Calibration.loops n) hw
         (Calibration.set_currentMode m s))
    = Calibration.servo_angle g (Calibration.state_after (Calibration.loops n) hw s).
Proof.
  intros hw n s m.
  destruct (calibration_loops_mode hw n s m) as (He & m' & Hs).
  split; [exact He | ].
  intros g. rewrite Hs.
  destruct (Calibration.state_after (Calibration.loops n) hw s), g; reflexivity.
Qed.
